(** * Expression builder: the typed expression model and its source compiler

    A shallow embedding of [src/App.tsx]: the operator classification
    ([isUnaryOperator], [isArithmeticOperator], [isBooleanOperator]), the
    recursive renderer [buildSource], the rule constructor
    [buildRuleExpression] and the node constructors ([createLiteral],
    [createVariable], [createFunction], [createOperation]); and, in
    [Module Editor], of the expression editor that [App] renders: its
    constructors, its operator classification and the event handlers of its
    nodes.

    The program is JavaScript: [buildSource] can throw, and it writes to the
    console through [console.assert], which reports a failed assertion and
    then lets execution go on.  Both effects are kept: a computation yields
    the lines it sent to the console together with its completion, which is
    either a value or a thrown exception. *)

From Stdlib Require Import String Ascii List ZArith Bool Arith Lia DecimalString.
Import ListNotations.

Local Open Scope list_scope.
Local Open Scope string_scope.

(** ** Host language: completions, console and the built-ins that are used *)

Module JS.

Inductive Exception : Type :=
| Error (message : string)
| TypeError (message : string).

Inductive Completion (A : Type) : Type :=
| Normal (value : A)
| Throw (exn : Exception).
Arguments Normal {A} value.
Arguments Throw {A} exn.

(** The console is the list of messages of the assertions that failed,
    oldest first. *)
Definition Console : Type := list string.

Definition M (A : Type) : Type := (Console * Completion A)%type.

Definition ret {A} (a : A) : M A := ([], Normal a).

Definition throw {A} (e : Exception) : M A := ([], Throw e).

Definition bind {A B} (m : M A) (k : A -> M B) : M B :=
  match m with
  | (out, Normal a) => let (out', r) := k a in ((out ++ out')%list, r)
  | (out, Throw e) => (out, Throw e)
  end.

(** [console.assert(condition, message)]: a false condition is reported,
    and in both cases the call returns normally. *)
Definition console_assert (condition : bool) (message : string) : M unit :=
  if condition then ([], Normal tt) else ([message], Normal tt).

(** [Array.prototype.map] with a callback that may throw: elements are
    visited from left to right and the first exception ends the loop. *)
Section ArrayMap.
Context {A B : Type} (f : A -> M B).

Fixpoint Array_map (l : list A) : M (list B) :=
  match l with
  | [] => ret []
  | x :: xs =>
      bind (f x) (fun y =>
      bind (Array_map xs) (fun ys =>
      ret (y :: ys)))
  end.
End ArrayMap.

(** [Array.prototype.slice(start, end)] for indices that are not negative. *)
Definition Array_slice {A} (start end_ : nat) (l : list A) : list A :=
  firstn (end_ - start) (skipn start l).

(** [Array.prototype.join(separator)] on an array of strings. *)
Definition Array_join (separator : string) (l : list string) : string :=
  String.concat separator l.

(** [Array.prototype.includes] on an array of strings. *)
Definition Array_includes (l : list string) (x : string) : bool :=
  existsb (String.eqb x) l.

(** [arr[0]] inside a template literal: a missing element is [undefined],
    which a template literal prints as the word undefined. *)
Definition template_index0 (l : list string) : string :=
  nth 0 l "undefined".

Definition Boolean_toString (b : bool) : string :=
  if b then "true" else "false".

(** [s[0]]: the first character as a string, [undefined] on the empty
    string. *)
Definition String_index0 (s : string) : option string :=
  match s with
  | EmptyString => None
  | String c _ => Some (String c EmptyString)
  end.

(** [s.substring(start)]. *)
Definition String_substring (start : nat) (s : string) : string :=
  String.substring start (String.length s - start) s.

Definition upper_ascii (c : ascii) : ascii :=
  let n := nat_of_ascii c in
  if (97 <=? n)%nat && (n <=? 122)%nat then ascii_of_nat (n - 32) else c.

(** [s.toUpperCase()] on ASCII text. *)
Fixpoint String_toUpperCase (s : string) : string :=
  match s with
  | EmptyString => EmptyString
  | String c r => String (upper_ascii c) (String_toUpperCase r)
  end.

(** The double quote character, as a string of length one. *)
Definition dquote : string := String (ascii_of_nat 34) EmptyString.

(** A JavaScript number is known here only through [toString]. *)
Class Number (number : Type) : Type :=
  Number_toString : number -> string.

End JS.

Import JS.

Notation "x <- m ;; k" := (bind m (fun x => k))
  (at level 61, m at next level, right associativity).

(** Integral numbers in the range where [toString] prints plain decimal
    digits, with a leading minus sign below zero. *)
#[export] Instance Z_Number : Number Z :=
  fun z => NilZero.string_of_int (Z.to_int z).

(** ** The expression model *)

Inductive DataType : Type :=
| number_
| string_
| boolean_.

Inductive BooleanOperators : Type :=
| Gt | Ge | Lt | Le | EqEq | NotEq | And | Or.

Inductive ArithmeticOperators : Type :=
| Plus | Minus | Times | Divide.

Inductive OperationOperator : Type :=
| BooleanOp (o : BooleanOperators)
| ArithmeticOp (o : ArithmeticOperators).

(** The string literal that each member of the operator type stands for. *)
Definition operator_text (operator : OperationOperator) : string :=
  match operator with
  | BooleanOp Gt => ">"
  | BooleanOp Ge => ">="
  | BooleanOp Lt => "<"
  | BooleanOp Le => "<="
  | BooleanOp EqEq => "=="
  | BooleanOp NotEq => "!="
  | BooleanOp And => "and"
  | BooleanOp Or => "or"
  | ArithmeticOp Plus => "+"
  | ArithmeticOp Minus => "-"
  | ArithmeticOp Times => "*"
  | ArithmeticOp Divide => "/"
  end.

(** Every member of the operator type. *)
Definition all_operators : list OperationOperator :=
  map BooleanOp [Gt; Ge; Lt; Le; EqEq; NotEq; And; Or]
  ++ map ArithmeticOp [Plus; Minus; Times; Divide].

Definition isUnaryOperator (operator : OperationOperator) : bool :=
  (operator_text operator =? "-")%string.

Definition isArithmeticOperator (operator : OperationOperator) : bool :=
  Array_includes ["+"; "-"; "*"; "/"] (operator_text operator).

Definition isBooleanOperator (operator : OperationOperator) : bool :=
  negb (isArithmeticOperator operator).

#[local] Set Warnings "-register-all".

Section Model.
Context {number : Type} `{Number number}.

Inductive LiteralValue : Type :=
| VNumber (n : number)
| VString (s : string)
| VBoolean (b : bool).

(** The four variants, each with its [return] field, and [Unrecognized]
    for an object whose [type] is none of the four tags: the value that the
    [default] branch of [buildSource] is there for. *)
Inductive Expression : Type :=
| FunctionCall (name : string) (args : list Expression) (return_ : DataType)
| Operation (operator : OperationOperator) (operands : list Expression)
    (return_ : DataType)
| Literal (value : LiteralValue) (return_ : DataType)
| Variable_ (name : string) (return_ : DataType)
| Unrecognized.

Record RuleExpression : Type := {
  id : string;
  priority : number;
  source : string;
  tree : Expression
}.

(** The second argument of [buildRuleExpression]. *)
Record RuleOptions : Type := {
  opt_id : string;
  opt_priority : number
}.

(** [buildSource], by recursion on the tree.  The operands of an operation
    are [e.operands.slice(0, 2).map(buildSource)]: the loop of [Array_map]
    over the first two operands is written out here, so that the recursion
    is on subterms; [buildSource_Operation] below gives the equation in the
    words of the source. *)
Fixpoint buildSource (e : Expression) : M string :=
  match e with
  | FunctionCall name args _ =>
      args' <- Array_map buildSource args ;;
      ret (name ++ "(" ++ Array_join ", " args' ++ ")")
  | Literal value _ =>
      match value with
      | VString value => ret (dquote ++ value ++ dquote)
      | VNumber value => ret (Number_toString value)
      | VBoolean value =>
          let form := Boolean_toString value in
          match String_index0 form with
          | Some first => ret (String_toUpperCase first ++ String_substring 1 form)
          | None => throw (TypeError "Cannot read properties of undefined")
          end
      end
  | Operation operator operands _ =>
      operands' <-
        match operands with
        | [] => ret []
        | first :: rest =>
            first' <- buildSource first ;;
            rest' <-
              match rest with
              | [] => ret []
              | second :: _ =>
                  second' <- buildSource second ;;
                  rest'' <- ret [] ;;
                  ret (second' :: rest'')
              end ;;
            ret (first' :: rest')
        end ;;
      let isUnary := isUnaryOperator operator in
      if isUnary then
        _ <- console_assert (List.length operands' =? 1)%nat
               "Unary operation requires one operand" ;;
        ret ("(" ++ operator_text operator ++ template_index0 operands' ++ ")")
      else
        _ <- console_assert (List.length operands' =? 2)%nat
               "Binary operation requires two operands" ;;
        ret ("(" ++ Array_join (" " ++ operator_text operator ++ " ") operands' ++ ")")
  | Variable_ name _ => ret name
  | Unrecognized => throw (Error "Invalid expression type")
  end.

Definition buildRuleExpression (e : Expression) (options : RuleOptions)
  : M RuleExpression :=
  let id := opt_id options in
  let priority := opt_priority options in
  source <- buildSource e ;;
  ret {| id := id; priority := priority; source := source; tree := e |}.

(** *** Helper functions for building expressions *)

Definition createLiteral (value : LiteralValue) (returnType : DataType)
  : Expression :=
  Literal value returnType.

Definition createVariable (name : string) (returnType : DataType)
  : Expression :=
  Variable_ name returnType.

Definition createFunction (name : string) (args : list Expression)
    (returnType : DataType) : Expression :=
  FunctionCall name args returnType.

Definition createOperation (operator : OperationOperator)
    (operands : list Expression) : Expression :=
  Operation operator operands
    (if isBooleanOperator operator then boolean_ else number_).

Definition return_of (e : Expression) : option DataType :=
  match e with
  | FunctionCall _ _ r | Operation _ _ r | Literal _ r | Variable_ _ r => Some r
  | Unrecognized => None
  end.

(** *** The same function with a bound on the depth of the calls

    [buildSource_fuel] follows the source word for word, [map] over
    [slice(0, 2)] included; every call of [buildSource] uses up one unit of
    fuel, and [None] means that the fuel ran out before the call
    returned. *)

Definition bind_fuel {A B} (m : option (M A)) (k : A -> option (M B))
  : option (M B) :=
  match m with
  | None => None
  | Some (out, Normal a) =>
      match k a with
      | None => None
      | Some (out', r) => Some ((out ++ out')%list, r)
      end
  | Some (out, Throw e) => Some (out, Throw e)
  end.

Fixpoint Array_map_fuel {A B} (f : A -> option (M B)) (l : list A)
  : option (M (list B)) :=
  match l with
  | [] => Some (ret [])
  | x :: xs =>
      bind_fuel (f x) (fun y =>
      bind_fuel (Array_map_fuel f xs) (fun ys =>
      Some (ret (y :: ys))))
  end.

Fixpoint buildSource_fuel (fuel : nat) (e : Expression) : option (M string) :=
  match fuel with
  | O => None
  | S fuel =>
      match e with
      | FunctionCall name args _ =>
          bind_fuel (Array_map_fuel (buildSource_fuel fuel) args) (fun args' =>
          Some (ret (name ++ "(" ++ Array_join ", " args' ++ ")")))
      | Literal value _ =>
          match value with
          | VString value => Some (ret (dquote ++ value ++ dquote))
          | VNumber value => Some (ret (Number_toString value))
          | VBoolean value =>
              let form := Boolean_toString value in
              match String_index0 form with
              | Some first =>
                  Some (ret (String_toUpperCase first ++ String_substring 1 form))
              | None =>
                  Some (throw (TypeError "Cannot read properties of undefined"))
              end
          end
      | Operation operator operands _ =>
          bind_fuel
            (Array_map_fuel (buildSource_fuel fuel) (Array_slice 0 2 operands))
            (fun operands' =>
          let isUnary := isUnaryOperator operator in
          if isUnary then
            Some (_ <- console_assert (List.length operands' =? 1)%nat
                        "Unary operation requires one operand" ;;
                  ret ("(" ++ operator_text operator
                           ++ template_index0 operands' ++ ")"))
          else
            Some (_ <- console_assert (List.length operands' =? 2)%nat
                        "Binary operation requires two operands" ;;
                  ret ("(" ++ Array_join (" " ++ operator_text operator ++ " ")
                                operands' ++ ")")))
      | Variable_ name _ => Some (ret name)
      | Unrecognized => Some (throw (Error "Invalid expression type"))
      end
  end.

(** *** Measures and predicates on trees *)

(** The number of nodes. *)
Fixpoint size (e : Expression) : nat :=
  match e with
  | FunctionCall _ args _ => S (list_sum (map size args))
  | Operation _ operands _ => S (list_sum (map size operands))
  | Literal _ _ | Variable_ _ _ | Unrecognized => 1
  end.

(** Every node carries one of the four tags. *)
Fixpoint well_tagged (e : Expression) : bool :=
  match e with
  | FunctionCall _ args _ => forallb well_tagged args
  | Operation _ operands _ => forallb well_tagged operands
  | Literal _ _ | Variable_ _ _ => true
  | Unrecognized => false
  end.

(** Every node carries one of the four tags and every operation has as
    many operands as its operator takes: one when it is unary, two
    otherwise. *)
Fixpoint well_formed (e : Expression) : bool :=
  match e with
  | FunctionCall _ args _ => forallb well_formed args
  | Operation operator operands _ =>
      (List.length operands =? (if isUnaryOperator operator then 1 else 2))%nat
      && forallb well_formed operands
  | Literal _ _ | Variable_ _ _ => true
  | Unrecognized => false
  end.

(** What is left of a tree when every [return] field is reset to one fixed
    value and the operands of every operation are cut after the second:
    two trees have the same image exactly when they differ in [return]
    fields and in operands at index two and beyond only. *)
Fixpoint forget_unread (e : Expression) : Expression :=
  match e with
  | FunctionCall name args _ => FunctionCall name (map forget_unread args) number_
  | Operation operator operands _ =>
      Operation operator
        match operands with
        | [] => []
        | first :: rest =>
            forget_unread first ::
            match rest with
            | [] => []
            | second :: _ => [forget_unread second]
            end
        end
        number_
  | Literal value _ => Literal value number_
  | Variable_ name _ => Variable_ name number_
  | Unrecognized => Unrecognized
  end.

(** *** Induction on trees, with the hypothesis for every child *)

Section Expression_induction.
Variable P : Expression -> Prop.
Hypothesis P_FunctionCall : forall name args return_,
  Forall P args -> P (FunctionCall name args return_).
Hypothesis P_Operation : forall operator operands return_,
  Forall P operands -> P (Operation operator operands return_).
Hypothesis P_Literal : forall value return_, P (Literal value return_).
Hypothesis P_Variable : forall name return_, P (Variable_ name return_).
Hypothesis P_Unrecognized : P Unrecognized.

Fixpoint Expression_induction (e : Expression) : P e :=
  let children :=
    fix children (l : list Expression) : Forall P l :=
      match l with
      | [] => Forall_nil P
      | x :: xs => Forall_cons x (Expression_induction x) (children xs)
      end in
  match e with
  | FunctionCall name args return_ =>
      P_FunctionCall name args return_ (children args)
  | Operation operator operands return_ =>
      P_Operation operator operands return_ (children operands)
  | Literal value return_ => P_Literal value return_
  | Variable_ name return_ => P_Variable name return_
  | Unrecognized => P_Unrecognized
  end.
End Expression_induction.

End Model.

Arguments LiteralValue number : clear implicits.
Arguments Expression number : clear implicits.
Arguments RuleExpression number : clear implicits.
Arguments RuleOptions number : clear implicits.

(** The outcome of a compilation and what it sent to the console. *)
Definition compile {number} `{Number number} (e : Expression number) : Completion string :=
  snd (buildSource e).

Definition console_of {number} `{Number number} (e : Expression number) : Console :=
  fst (buildSource e).

(** *** Which nodes [buildSource] reaches, and what its assertions check *)

(** Whether [buildSource] reaches a node with an unrecognized tag: every
    argument of a function call is visited, and of the operands of an
    operation the first two. *)
Fixpoint visits_unrecognized {number : Type} (e : Expression number) : bool :=
  match e with
  | FunctionCall _ args _ => existsb visits_unrecognized args
  | Operation _ operands _ =>
      match operands with
      | [] => false
      | first :: rest =>
          visits_unrecognized first
          || match rest with
             | [] => false
             | second :: _ => visits_unrecognized second
             end
      end
  | Literal _ _ | Variable_ _ _ => false
  | Unrecognized => true
  end.

(** Whether the two assertions hold at every operation that [buildSource]
    reaches.  They look at the operands after [slice(0, 2)]: a unary
    operator needs exactly one operand, any other operator two or more. *)
Fixpoint assertions_hold {number : Type} (e : Expression number) : bool :=
  match e with
  | FunctionCall _ args _ => forallb assertions_hold args
  | Operation operator operands _ =>
      (if isUnaryOperator operator
       then (List.length operands =? 1)%nat
       else (2 <=? List.length operands)%nat)
      && match operands with
         | [] => true
         | first :: rest =>
             assertions_hold first
             && match rest with
                | [] => true
                | second :: _ => assertions_hold second
                end
         end
  | Literal _ _ | Variable_ _ _ | Unrecognized => true
  end.

(** *** Parentheses in the text *)

(** One pass over a text from the left, counting the parentheses that are
    open: the count after the text, or [None] when a closing parenthesis
    comes with none open. *)
Fixpoint scan_parens (s : string) (depth : nat) : option nat :=
  match s with
  | EmptyString => Some depth
  | String c rest =>
      if (c =? "(")%char then scan_parens rest (S depth)
      else if (c =? ")")%char then
        match depth with
        | O => None
        | S depth' => scan_parens rest depth'
        end
      else scan_parens rest depth
  end.

(** Every parenthesis of the text has its partner. *)
Definition well_nested (s : string) : bool :=
  match scan_parens s 0 with
  | Some O => true
  | _ => false
  end.

(** The texts that [buildSource] copies into its result, which are the
    names, the string values and the printed numbers, are well nested. *)
Fixpoint atoms_well_nested {number : Type} `{Number number}
    (e : Expression number) : bool :=
  match e with
  | FunctionCall name args _ =>
      well_nested name && forallb atoms_well_nested args
  | Operation _ operands _ => forallb atoms_well_nested operands
  | Literal (VString s) _ => well_nested s
  | Literal (VNumber n) _ => well_nested (Number_toString n)
  | Literal (VBoolean _) _ => true
  | Variable_ name _ => well_nested name
  | Unrecognized => true
  end.

(** ** The editor component

    A shallow embedding of the expression editor, the component that
    [App] renders.  The editor has types, constructors and an operator
    classification of its own; its event handlers build the node that they
    hand to [onUpdate].  The handlers are modelled as functions of the
    fields of the node on display ([exp]), of the component state that they
    read, and of whether an [onUpdate] callback was given; the result is the
    argument of the call to [onUpdate], if the call is made.  The flags of
    the component itself (editing, menu open, collapsed) and the markup are
    not part of the model. *)

Module Editor.

(** A position of a JavaScript array: an element, the value [undefined], or
    no element at all (a hole, left by an assignment past the end). *)
Inductive Slot (A : Type) : Type :=
| Elem (a : A)
| Undefined
| Hole.
Arguments Elem {A} a.
Arguments Undefined {A}.
Arguments Hole {A}.

Section Arrays.
Context {A : Type}.

(** [[...arr]]: the iterator yields [undefined] at a hole. *)
Definition Array_spread (l : list (Slot A)) : list (Slot A) :=
  map (fun s => match s with Hole => Undefined | _ => s end) l.

(** [arr[index] = x]: inside the array the position is overwritten, at or
    past the end the array grows and the positions skipped are holes. *)
Definition Array_assign (l : list (Slot A)) (index : nat) (x : A)
  : list (Slot A) :=
  if (index <? List.length l)%nat
  then firstn index l ++ Elem x :: skipn (S index) l
  else l ++ repeat Hole (index - List.length l) ++ [Elem x].

(** [arr[index]] as a value: [undefined] at a hole and past the end. *)
Definition Array_read (l : list (Slot A)) (index : nat) : Slot A :=
  match nth_error l index with
  | Some (Elem a) => Elem a
  | _ => Undefined
  end.

(** [arr.filter((_, i) => keep(i))]: holes are skipped, the other positions
    are kept when the callback accepts their index. *)
Fixpoint Array_filter_from (keep : nat -> bool) (i : nat) (l : list (Slot A))
  : list (Slot A) :=
  match l with
  | [] => []
  | Hole :: rest => Array_filter_from keep (S i) rest
  | s :: rest =>
      if keep i then s :: Array_filter_from keep (S i) rest
      else Array_filter_from keep (S i) rest
  end.

Definition Array_filter (keep : nat -> bool) (l : list (Slot A))
  : list (Slot A) :=
  Array_filter_from keep 0 l.

(** [arr.push(x)]. *)
Definition Array_push (l : list (Slot A)) (x : A) : list (Slot A) :=
  l ++ [Elem x].

(** [arr.splice(start)]: the array is cut at [start] in place, and the
    positions removed are returned as a new array.  The result is the pair
    of the array after the call and of the array returned. *)
Definition Array_splice (l : list (Slot A)) (start : nat)
  : list (Slot A) * list (Slot A) :=
  (firstn start l, skipn start l).

(** No position of the array is a hole. *)
Definition dense (l : list (Slot A)) : Prop :=
  Forall (fun s => s <> Hole) l.

End Arrays.

Definition lower_ascii (c : ascii) : ascii :=
  let n := nat_of_ascii c in
  if (65 <=? n)%nat && (n <=? 90)%nat then ascii_of_nat (n + 32) else c.

(** [s.toLowerCase()] on ASCII text. *)
Fixpoint String_toLowerCase (s : string) : string :=
  match s with
  | EmptyString => EmptyString
  | String c r => String (lower_ascii c) (String_toLowerCase r)
  end.

Definition isUnaryOperator (op : string) : bool :=
  Array_includes ["!"; "-"; "+"; "typeof"] op.

Section Model.
Context {number : Type}.

(** The editor's [ExtendedExpression]: its four variants, of which only the
    literal has a [return] field, and the placeholder [Empty]. *)
Inductive Expression : Type :=
| FunctionCall (name : string) (args : list (Slot Expression))
| Operation (operator : string) (operands : list (Slot Expression))
| Literal (value : LiteralValue number) (return_ : DataType)
| Variable_ (name : string)
| Empty.

(** [typeof value] for the value of a literal. *)
Definition typeof (value : LiteralValue number) : DataType :=
  match value with
  | VString _ => string_
  | VNumber _ => number_
  | VBoolean _ => boolean_
  end.

Definition createEmptyExpression : Expression := Empty.

Definition createLiteral (value : LiteralValue number) : Expression :=
  let type := typeof value in
  Literal value type.

Definition createVariable (name : string) : Expression :=
  Variable_ name.

Definition createOperation (operator : string)
    (operands : list (Slot Expression)) : Expression :=
  Operation operator operands.

(** [args] has the default value [[]]: [None] is a call without it. *)
Definition createFunction (name : string)
    (args : option (list (Slot Expression))) : Expression :=
  FunctionCall name (match args with Some args => args | None => [] end).

(** [EmptyExpressionNode]: the choice of a node type in the menu.  The
    [switch] has no [default] branch. *)
Definition handleSelectType (type : string) : option Expression :=
  if (type =? "literal")%string then
    Some (createLiteral (VString EmptyString))
  else if (type =? "variable")%string then
    Some (createVariable "variable")
  else if (type =? "operation")%string then
    Some (createOperation "+"
            [Elem createEmptyExpression; Elem createEmptyExpression])
  else if (type =? "function")%string then
    Some (createFunction "function" (Some []))
  else None.

(** *** [FunctionExpressionNode], with [exp] a call of [name] on [args] *)

Definition handleNameSave (onUpdate : bool) (name : string)
    (args : list (Slot Expression)) (functionName : string)
  : option Expression :=
  if onUpdate then Some (FunctionCall functionName args) else None.

Definition handleArgUpdate (onUpdate : bool) (name : string)
    (args : list (Slot Expression)) (index : nat) (newArg : Expression)
  : option Expression :=
  if onUpdate then
    let newArgs := Array_spread args in
    let newArgs := Array_assign newArgs index newArg in
    Some (FunctionCall name newArgs)
  else None.

Definition handleArgDelete (onUpdate : bool) (name : string)
    (args : list (Slot Expression)) (index : nat) : option Expression :=
  if onUpdate then
    let newArgs := Array_filter (fun i => negb (i =? index)%nat) args in
    Some (FunctionCall name newArgs)
  else None.

Definition addArgument (onUpdate : bool) (name : string)
    (args : list (Slot Expression)) : option Expression :=
  if onUpdate then
    Some (FunctionCall name (Array_spread args ++ [Elem Empty]))
  else None.

(** *** [OperationExpressionNode], with [exp] the operation
    [exp_operator] on [exp_operands] *)

(** [operator] is the operator chosen in the form. *)
Definition Operation_handleSave (onUpdate : bool) (exp_operator : string)
    (exp_operands : list (Slot Expression)) (operator : string)
  : option Expression :=
  let isUnary := isUnaryOperator exp_operator in
  if onUpdate then
    let newIsUnary := isUnaryOperator operator in
    let newOperands := Array_spread exp_operands in
    let newOperands :=
      if isUnary && negb newIsUnary then Array_push newOperands Empty
      else if negb isUnary && newIsUnary then [Array_read newOperands 0]
      else newOperands in
    Some (Operation operator newOperands)
  else None.


(** [handleOperandDelete] calls [splice] on the operands of [exp] itself:
    the result is the pair of that array after the call and of the argument
    of [onUpdate]. *)
Definition handleOperandDelete (onUpdate : bool) (exp_operator : string)
    (exp_operands : list (Slot Expression)) (index : nat)
  : list (Slot Expression) * option Expression :=
  if onUpdate then
    let (exp_operands', newOperands) := Array_splice exp_operands index in
    (exp_operands', Some (Operation exp_operator newOperands))
  else (exp_operands, None).

(** *** [LiteralExpressionNode] and [VariableExpressionNode] *)

Section Literals.
Context `{Number number} (Number_ofString : string -> number).

(** [String(value)]. *)
Definition String_of (value : LiteralValue number) : string :=
  match value with
  | VString s => s
  | VNumber n => Number_toString n
  | VBoolean b => Boolean_toString b
  end.

(** [value] and [type] are the text and the type chosen in the form;
    [Number_ofString] is [Number(value)]. *)
Definition Literal_handleSave (onUpdate : bool) (value : string)
    (type : DataType) : option Expression :=
  if onUpdate then
    let typedValue :=
      match type with
      | number_ => VNumber (Number_ofString value)
      | boolean_ => VBoolean (String_toLowerCase value =? "true")%string
      | string_ => VString value
      end in
    Some (Literal typedValue type)
  else None.

(** The text that the editor shows for a literal. *)
Definition Literal_text (value : LiteralValue number) (return_ : DataType)
  : string :=
  match return_ with
  | string_ => dquote ++ String_of value ++ dquote
  | _ => String_of value
  end.

End Literals.

Definition Variable_handleSave (onUpdate : bool) (variableName : string)
  : option Expression :=
  if onUpdate then Some (Variable_ variableName) else None.

(** The operands of an operation are as many as the editor shows for its
    operator: one when [isUnaryOperator] holds, two otherwise. *)
Definition arity_ok (operator : string) (operands : list (Slot Expression))
  : Prop :=
  List.length operands = if isUnaryOperator operator then 1 else 2.

End Model.

Arguments Expression number : clear implicits.

End Editor.

(** ** Facts about the host language *)

Lemma String_append_assoc (s1 s2 s3 : string) :
  (s1 ++ s2) ++ s3 = s1 ++ (s2 ++ s3).
Proof.
  induction s1 as [|c s1 IH]; simpl.
  - reflexivity.
  - rewrite IH. reflexivity.
Qed.

Lemma bind_Normal {A B} (m : M A) (k : A -> M B) out a :
  m = (out, Normal a) ->
  bind m k = ((out ++ fst (k a))%list, snd (k a)).
Proof.
  intros ->. unfold bind. destruct (k a); reflexivity.
Qed.

Lemma bind_Throw {A B} (m : M A) (k : A -> M B) out x :
  m = (out, Throw x) -> bind m k = (out, Throw x).
Proof.
  intros ->. reflexivity.
Qed.

Lemma bind_Throw_inv {A B} (m : M A) (k : A -> M B) out x :
  bind m k = (out, Throw x) ->
  (exists out1, m = (out1, Throw x)) \/
  (exists out1 a out2, m = (out1, Normal a) /\ k a = (out2, Throw x)).
Proof.
  destruct m as [out1 [a|y]]; simpl.
  - destruct (k a) as [out2 r] eqn:Hk. intros [= <- ->].
    right. exists out1, a, out2. auto.
  - intros [= <- <-]. left. exists out1. reflexivity.
Qed.

Lemma Array_map_ext_in {A B} (f g : A -> M B) l :
  Forall (fun x => f x = g x) l -> Array_map f l = Array_map g l.
Proof.
  induction 1 as [|x xs Hx _ IH]; simpl.
  - reflexivity.
  - rewrite Hx, IH. reflexivity.
Qed.

Lemma Array_map_map {A B C} (h : A -> B) (f : B -> M C) l :
  Array_map f (map h l) = Array_map (fun x => f (h x)) l.
Proof.
  induction l as [|x xs IH]; simpl.
  - reflexivity.
  - rewrite IH. reflexivity.
Qed.

(** When the callback returns normally on every element, [map] returns the
    results in order, and the console holds the output of the calls in
    order. *)
Lemma Array_map_Forall2 {A B} (f : A -> M B) l ys :
  Forall2 (fun x y => snd (f x) = Normal y) l ys ->
  Array_map f l = (flat_map (fun x => fst (f x)) l, Normal ys).
Proof.
  induction 1 as [|x y xs ys Hx _ IH]; simpl.
  - reflexivity.
  - destruct (f x) as [out r] eqn:Hf. simpl in Hx. subst r.
    rewrite IH. simpl. rewrite app_nil_r. reflexivity.
Qed.

Lemma Array_map_Normal {A B} (f : A -> M B) l :
  Forall (fun x => exists y, snd (f x) = Normal y) l ->
  exists ys, Forall2 (fun x y => snd (f x) = Normal y) l ys.
Proof.
  induction 1 as [|x xs [y Hy] _ [ys IH]].
  - exists []. constructor.
  - exists (y :: ys). constructor; assumption.
Qed.

(** An exception that leaves [map] was thrown by the callback. *)
Lemma Array_map_Throw {A B} (f : A -> M B) l out x :
  Array_map f l = (out, Throw x) ->
  exists a out', In a l /\ f a = (out', Throw x).
Proof.
  revert out. induction l as [|a l IH]; simpl; intros out Hm.
  - discriminate.
  - apply bind_Throw_inv in Hm. destruct Hm as [[out1 Ha]|(out1 & b & out2 & Ha & Hm)].
    + exists a, out1. auto.
    + apply bind_Throw_inv in Hm.
      destruct Hm as [[out3 Hl]|(out3 & bs & out4 & _ & Hr)].
      * destruct (IH _ Hl) as (a' & out' & Hin & Hf).
        exists a', out'. auto.
      * discriminate.
Qed.

Lemma Array_slice_0_2 {A} (l : list A) :
  Array_slice 0 2 l =
  match l with
  | [] => []
  | first :: rest =>
      first :: match rest with [] => [] | second :: _ => [second] end
  end.
Proof.
  destruct l as [|a [|b l]]; reflexivity.
Qed.

Lemma Array_slice_0_2_incl {A} (l : list A) x :
  In x (Array_slice 0 2 l) -> In x l.
Proof.
  rewrite Array_slice_0_2. destruct l as [|a [|b l]]; simpl; tauto.
Qed.

Lemma Array_map_fuel_Some {A B} (f : A -> option (M B)) (g : A -> M B) l :
  (forall x, In x l -> f x = Some (g x)) ->
  Array_map_fuel f l = Some (Array_map g l).
Proof.
  induction l as [|x xs IH]; simpl; intros Hf.
  - reflexivity.
  - rewrite (Hf x) by auto. rewrite IH by auto.
    unfold bind_fuel, bind. destruct (g x) as [out [y|e]]; [|reflexivity].
    destruct (Array_map g xs) as [out' [ys|e]]; reflexivity.
Qed.

Lemma bind_fuel_Some {A B} (m : M A) (k : A -> M B) :
  bind_fuel (Some m) (fun a => Some (k a)) = Some (bind m k).
Proof.
  unfold bind_fuel, bind. destruct m as [out [a|e]]; [|reflexivity].
  destruct (k a); reflexivity.
Qed.

(** ** Facts about [buildSource] *)

Section BuildSource.
Context {number : Type} `{Number number}.
Implicit Types (e : Expression number) (args operands : list (Expression number)).

(** The operation branch, in the words of the source. *)
Lemma buildSource_Operation operator operands return_ :
  buildSource (Operation operator operands return_) =
  (operands' <- Array_map buildSource (Array_slice 0 2 operands) ;;
   let isUnary := isUnaryOperator operator in
   if isUnary then
     _ <- console_assert (List.length operands' =? 1)%nat
            "Unary operation requires one operand" ;;
     ret ("(" ++ operator_text operator ++ template_index0 operands' ++ ")")
   else
     _ <- console_assert (List.length operands' =? 2)%nat
            "Binary operation requires two operands" ;;
     ret ("(" ++ Array_join (" " ++ operator_text operator ++ " ") operands' ++ ")")).
Proof.
  destruct operands as [|a [|b rest]]; reflexivity.
Qed.

Lemma buildSource_FunctionCall name args return_ :
  buildSource (FunctionCall name args return_) =
  (args' <- Array_map buildSource args ;;
   ret (name ++ "(" ++ Array_join ", " args' ++ ")")).
Proof.
  reflexivity.
Qed.

(** After the operands, an operation node always returns normally. *)
Lemma operation_tail_Normal operator (operands' : list string) :
  exists out s,
    (let isUnary := isUnaryOperator operator in
     if isUnary then
       _ <- console_assert (List.length operands' =? 1)%nat
              "Unary operation requires one operand" ;;
       ret ("(" ++ operator_text operator ++ template_index0 operands' ++ ")")
     else
       _ <- console_assert (List.length operands' =? 2)%nat
              "Binary operation requires two operands" ;;
       ret ("(" ++ Array_join (" " ++ operator_text operator ++ " ") operands' ++ ")"))
    = (out, Normal s).
Proof.
  cbv zeta. destruct (isUnaryOperator operator).
  - destruct (List.length operands' =? 1)%nat; do 2 eexists; reflexivity.
  - destruct (List.length operands' =? 2)%nat; do 2 eexists; reflexivity.
Qed.

Lemma well_tagged_Normal e :
  well_tagged e = true -> exists out s, buildSource e = (out, Normal s).
Proof.
  induction e as [name args r IH|operator operands r IH|value r|name r|]
    using Expression_induction; intros Hwt.
  - simpl in Hwt. rewrite forallb_forall in Hwt. rewrite Forall_forall in IH.
    destruct (Array_map_Normal buildSource args) as [ys Hys].
    { apply Forall_forall. intros a Ha.
      destruct (IH a Ha (Hwt a Ha)) as (out & s & Hs).
      exists s. rewrite Hs. reflexivity. }
    rewrite buildSource_FunctionCall, (Array_map_Forall2 _ _ _ Hys).
    simpl. do 2 eexists. reflexivity.
  - simpl in Hwt. rewrite forallb_forall in Hwt. rewrite Forall_forall in IH.
    destruct (Array_map_Normal buildSource (Array_slice 0 2 operands)) as [ys Hys].
    { apply Forall_forall. intros a Ha. apply Array_slice_0_2_incl in Ha.
      destruct (IH a Ha (Hwt a Ha)) as (out & s & Hs).
      exists s. rewrite Hs. reflexivity. }
    rewrite buildSource_Operation.
    destruct (operation_tail_Normal operator ys) as (out & s & Htail).
    rewrite (bind_Normal _ _ _ _ (Array_map_Forall2 _ _ _ Hys)), Htail.
    simpl. do 2 eexists. reflexivity.
  - destruct value as [n|s|[|]]; do 2 eexists; reflexivity.
  - do 2 eexists; reflexivity.
  - discriminate.
Qed.

(** A tree that is well formed compiles without a word on the console. *)
Lemma well_formed_quiet e :
  well_formed e = true -> exists s, buildSource e = ([], Normal s).
Proof.
  induction e as [name args r IH|operator operands r IH|value r|name r|]
    using Expression_induction; intros Hwf.
  - simpl in Hwf. rewrite forallb_forall in Hwf. rewrite Forall_forall in IH.
    assert (Hq : Forall (fun a => exists s, buildSource a = ([], Normal s)) args).
    { apply Forall_forall. intros a Ha. exact (IH a Ha (Hwf a Ha)). }
    clear IH Hwf. rewrite buildSource_FunctionCall.
    assert (Hm : exists ys, Array_map buildSource args = ([], Normal ys)).
    { induction Hq as [|a l [s Hs] _ [ys IH]]; simpl.
      - eexists; reflexivity.
      - rewrite Hs, IH. eexists; reflexivity. }
    destruct Hm as [ys ->]. eexists; reflexivity.
  - simpl in Hwf. apply andb_true_iff in Hwf. destruct Hwf as [Hlen Hwf].
    apply Nat.eqb_eq in Hlen.
    rewrite forallb_forall in Hwf. rewrite Forall_forall in IH.
    assert (Hq : forall a, In a operands -> exists s, buildSource a = ([], Normal s)).
    { intros a Ha. exact (IH a Ha (Hwf a Ha)). }
    clear IH Hwf. unfold buildSource; fold (@buildSource number _).
    destruct (isUnaryOperator operator) eqn:Hu.
    + destruct operands as [|a [|b rest]]; try discriminate.
      destruct (Hq a (or_introl eq_refl)) as [sa ->].
      eexists; reflexivity.
    + destruct operands as [|a [|b [|c rest]]]; try discriminate.
      destruct (Hq a (or_introl eq_refl)) as [sa ->].
      destruct (Hq b (or_intror (or_introl eq_refl))) as [sb ->].
      eexists; reflexivity.
  - destruct value as [n|s|[|]]; eexists; reflexivity.
  - eexists; reflexivity.
  - discriminate.
Qed.

Lemma well_formed_well_tagged e :
  well_formed e = true -> well_tagged e = true.
Proof.
  induction e as [name args r IH|operator operands r IH|value r|name r|]
    using Expression_induction; simpl; intros Hwf; try assumption.
  - rewrite forallb_forall in *. rewrite Forall_forall in IH. auto.
  - apply andb_true_iff in Hwf. destruct Hwf as [_ Hwf].
    rewrite forallb_forall in *. rewrite Forall_forall in IH. auto.
Qed.

(** Whatever [buildSource] throws comes from the [default] branch. *)
Lemma buildSource_Throw_default e :
  forall out x,
    buildSource e = (out, Throw x) -> x = Error "Invalid expression type".
Proof.
  induction e as [name args r IH|operator operands r IH|value r|name r|]
    using Expression_induction; intros out x Hx.
  - rewrite buildSource_FunctionCall in Hx. rewrite Forall_forall in IH.
    apply bind_Throw_inv in Hx.
    destruct Hx as [[out1 Hm]|(out1 & ys & out2 & _ & Hr)]; [|discriminate].
    apply Array_map_Throw in Hm. destruct Hm as (a & out' & Ha & Hf).
    exact (IH a Ha _ _ Hf).
  - rewrite buildSource_Operation in Hx. rewrite Forall_forall in IH.
    apply bind_Throw_inv in Hx.
    destruct Hx as [[out1 Hm]|(out1 & ys & out2 & _ & Hr)].
    + apply Array_map_Throw in Hm. destruct Hm as (a & out' & Ha & Hf).
      apply Array_slice_0_2_incl in Ha. exact (IH a Ha _ _ Hf).
    + destruct (operation_tail_Normal operator ys) as (out3 & s & Htail).
      rewrite Htail in Hr. discriminate.
  - destruct value as [n|s|[|]]; discriminate.
  - discriminate.
  - simpl in Hx. unfold throw in Hx. congruence.
Qed.

(** [buildSource] reads neither a [return] field nor an operand after the
    second. *)
Lemma buildSource_forget_unread e :
  buildSource (forget_unread e) = buildSource e.
Proof.
  induction e as [name args r IH|operator operands r IH|value r|name r|]
    using Expression_induction; try reflexivity.
  - simpl forget_unread. rewrite !buildSource_FunctionCall.
    rewrite Array_map_map, (Array_map_ext_in _ buildSource args IH).
    reflexivity.
  - destruct operands as [|a [|b rest]].
    + reflexivity.
    + inversion IH as [|? ? Ha _]; subst.
      simpl. rewrite Ha. reflexivity.
    + inversion IH as [|? ? Ha IH']; subst.
      inversion IH' as [|? ? Hb _]; subst.
      simpl. rewrite Ha, Hb. reflexivity.
Qed.

Lemma size_In e args :
  In e args -> size e <= list_sum (map size args).
Proof.
  induction args as [|a l IH]; simpl; intros Hin.
  - contradiction.
  - destruct Hin as [->|Hin]; [lia|]. specialize (IH Hin). lia.
Qed.

End BuildSource.

(** ** The operator classification *)

(** C6, as amended.  The operator type has twelve members, not nine:
    [all_operators] lists each of them once.  For every one of them exactly
    one of [isArithmeticOperator] and [isBooleanOperator] is true, the
    arithmetic ones being [+ - * /] and the boolean ones the comparison and
    logical operators, and [isUnaryOperator] is true exactly for [-]. *)
Theorem operator_partition_twelve :
  NoDup all_operators /\
  List.length all_operators = 12 /\
  forall operator : OperationOperator,
    In operator all_operators /\
    xorb (isArithmeticOperator operator) (isBooleanOperator operator) = true /\
    (isArithmeticOperator operator = true <->
       exists o, operator = ArithmeticOp o) /\
    (isBooleanOperator operator = true <-> exists o, operator = BooleanOp o) /\
    (isUnaryOperator operator = true <-> operator_text operator = "-") /\
    (operator_text operator = "-" <-> operator = ArithmeticOp Minus).
Proof.
  split; [|split].
  - unfold all_operators. simpl.
    repeat (constructor; [simpl; intuition discriminate|]). constructor.
  - reflexivity.
  - intros operator. split; [|split; [|split; [|split; [|split]]]].
    + destruct operator as [[]|[]]; simpl; tauto.
    + destruct operator as [[]|[]]; reflexivity.
    + destruct operator as [o|o].
      * split; [destruct o; discriminate|intros [o' Ho]; discriminate].
      * split; [eauto|destruct o; reflexivity].
    + destruct operator as [o|o].
      * split; [eauto|destruct o; reflexivity].
      * split; [destruct o; discriminate|intros [o' Ho]; discriminate].
    + unfold isUnaryOperator. apply String.eqb_eq.
    + split; [destruct operator as [[]|[]]; simpl; congruence|intros ->; reflexivity].
Qed.

(** C6, as stated, fails: no enumeration of the operator type without
    repetition has nine entries. *)
Lemma operators_not_nine :
  ~ exists l : list OperationOperator,
      NoDup l /\ (forall operator, In operator l) /\ List.length l = 9.
Proof.
  intros (l & Hnd & Hall & Hlen).
  assert (Hle : List.length all_operators <= List.length l).
  { apply NoDup_incl_length.
    - unfold all_operators. simpl.
      repeat (constructor; [simpl; intuition discriminate|]). constructor.
    - intros operator _. apply Hall. }
  rewrite Hlen in Hle. simpl in Hle. lia.
Qed.

(** C7.  [createOperation] takes no [return] from its caller: the node it
    builds has [return] equal to [boolean] for each of the comparison and
    logical operators and to [number] for each of the arithmetic ones, with
    the operator and the operands as given. *)
Theorem createOperation_return_derived {number : Type}
    (operands : list (Expression number)) :
  (forall o : BooleanOperators,
     createOperation (BooleanOp o) operands
     = Operation (BooleanOp o) operands boolean_) /\
  (forall o : ArithmeticOperators,
     createOperation (ArithmeticOp o) operands
     = Operation (ArithmeticOp o) operands number_) /\
  (forall operator,
     return_of (createOperation operator operands)
     = Some (if isBooleanOperator operator then boolean_ else number_)).
Proof.
  split; [|split].
  - intros []; reflexivity.
  - intros []; reflexivity.
  - reflexivity.
Qed.

(** ** Rendering *)

(** C4.  A string literal is rendered between two double quotes with its
    characters unchanged, a number literal as [toString] prints it, and a
    boolean literal as [True] or [False]; the [return] field plays no part
    and nothing is written to the console. *)
Theorem buildSource_literal_rendering {number : Type} `{Number number}
    (return_ : DataType) :
  (forall s : string,
     @buildSource number _ (Literal (VString s) return_)
     = ([], Normal (dquote ++ s ++ dquote))) /\
  (forall n : number,
     buildSource (Literal (VNumber n) return_)
     = ([], Normal (Number_toString n))) /\
  @buildSource number _ (Literal (VBoolean true) return_) = ([], Normal "True") /\
  @buildSource number _ (Literal (VBoolean false) return_) = ([], Normal "False") /\
  buildSource (createLiteral (VString ("say " ++ dquote ++ "hi" ++ dquote)) string_
                 : Expression Z)
  = ([], Normal (dquote ++ "say " ++ dquote ++ "hi" ++ dquote ++ dquote)) /\
  buildSource (createLiteral (VNumber 10%Z) number_) = ([], Normal "10") /\
  buildSource (createLiteral (VNumber (-7)%Z) number_) = ([], Normal "-7").
Proof.
  repeat split; reflexivity.
Qed.

(** C3.  With operands that compile to [sa] and [sb], an operation whose
    operator is unary and which has the one operand is rendered as an opening
    parenthesis, the operator, [sa] and a closing parenthesis, with no space;
    an operation whose operator is not unary and which has the two operands
    is rendered as [sa], a space, the operator, a space and [sb], in
    parentheses.  The console receives what the operands wrote and nothing
    more.  Addition of the literals 1 and 2 gives [(1 + 2)], negation of the
    literal 5 gives [(-5)]. *)
Theorem buildSource_operation_rendering {number : Type} `{Number number}
    (operator : OperationOperator) (a b : Expression number)
    (return_ : DataType) (outa outb : Console) (sa sb : string) :
  buildSource a = (outa, Normal sa) ->
  buildSource b = (outb, Normal sb) ->
  (isUnaryOperator operator = true ->
     buildSource (Operation operator [a] return_)
     = (outa, Normal ("(" ++ operator_text operator ++ sa ++ ")"))) /\
  (isUnaryOperator operator = false ->
     buildSource (Operation operator [a; b] return_)
     = ((outa ++ outb)%list,
        Normal ("(" ++ sa ++ " " ++ operator_text operator ++ " " ++ sb ++ ")"))) /\
  buildSource (createOperation (ArithmeticOp Plus)
                 [createLiteral (VNumber 1%Z) number_;
                  createLiteral (VNumber 2%Z) number_])
  = ([], Normal "(1 + 2)") /\
  buildSource (createOperation (ArithmeticOp Minus)
                 [createLiteral (VNumber 5%Z) number_])
  = ([], Normal "(-5)").
Proof.
  intros Ha Hb. split; [|split; [|split]]; try reflexivity.
  - intros Hu. unfold buildSource; fold (@buildSource number _).
    rewrite Ha, Hu. simpl. rewrite !app_nil_r. reflexivity.
  - intros Hu. unfold buildSource; fold (@buildSource number _).
    rewrite Ha, Hb, Hu. simpl. rewrite !app_nil_r.
    repeat (rewrite String_append_assoc; simpl). reflexivity.
Qed.

Lemma buildSource_operation_rendering_witness :
  buildSource (Operation (BooleanOp Ge)
                 [Variable_ "price" number_; Literal (VNumber 10%Z) number_]
                 boolean_)
  = ([], Normal "(price >= 10)").
Proof.
  exact (proj1 (proj2
    (buildSource_operation_rendering (BooleanOp Ge)
       (Variable_ "price" number_) (Literal (VNumber 10%Z) number_)
       boolean_ [] [] "price" "10" eq_refl eq_refl)) eq_refl).
Defined.

(** C5.  When the arguments compile to the strings [strs], the call is
    rendered as the name, an opening parenthesis, [strs] joined with a comma
    and a space, and a closing parenthesis; the console receives what the
    arguments wrote, in order.  With no argument the parentheses are
    empty. *)
Theorem buildSource_function_rendering {number : Type} `{Number number}
    (name : string) (args : list (Expression number)) (return_ : DataType)
    (strs : list string) :
  Forall2 (fun a s => compile a = Normal s) args strs ->
  buildSource (FunctionCall name args return_)
  = (flat_map console_of args,
     Normal (name ++ "(" ++ Array_join ", " strs ++ ")")) /\
  @buildSource number _ (FunctionCall name [] return_)
  = ([], Normal (name ++ "()")) /\
  (forall s1 s2 s3, strs = [s1; s2; s3] ->
     compile (FunctionCall name args return_)
     = Normal (name ++ "(" ++ s1 ++ ", " ++ s2 ++ ", " ++ s3 ++ ")")).
Proof.
  intros Hargs.
  assert (Hcall : buildSource (FunctionCall name args return_)
                  = (flat_map console_of args,
                     Normal (name ++ "(" ++ Array_join ", " strs ++ ")"))).
  { rewrite buildSource_FunctionCall.
    rewrite (bind_Normal _ _ _ _ (Array_map_Forall2 buildSource args strs Hargs)).
    simpl. rewrite app_nil_r. reflexivity. }
  split; [exact Hcall|split; [reflexivity|]].
  intros s1 s2 s3 ->. unfold compile. rewrite Hcall. simpl.
  repeat (rewrite String_append_assoc; simpl). reflexivity.
Qed.

Lemma buildSource_function_rendering_witness :
  buildSource
    (createFunction "avg"
       [createOperation (ArithmeticOp Plus)
          [createVariable "price" number_; createLiteral (VNumber 10%Z) number_];
        createLiteral (VString "x") string_]
       number_)
  = ([], Normal ("avg((price + 10), " ++ dquote ++ "x" ++ dquote ++ ")")).
Proof.
  refine (proj1
    (buildSource_function_rendering "avg"
       [createOperation (ArithmeticOp Plus)
          [createVariable "price" number_; createLiteral (VNumber 10%Z) number_];
        createLiteral (VString "x") string_]
       number_
       ["(price + 10)"; dquote ++ "x" ++ dquote] _)).
  repeat constructor.
Defined.

(** C8.  Two trees that differ in [return] fields and in operands at index
    two and beyond only, which is what equality of their images under
    [forget_unread] says, have the same compilation: the same completion,
    text or exception, and the same console output.  With the same tree on
    both sides this is the determinism of the function. *)
Theorem buildSource_reads_structure_only {number : Type} `{Number number}
    (e1 e2 : Expression number) :
  forget_unread e1 = forget_unread e2 ->
  buildSource e1 = buildSource e2.
Proof.
  intros Heq.
  rewrite <- (buildSource_forget_unread e1), <- (buildSource_forget_unread e2).
  rewrite Heq. reflexivity.
Qed.

Lemma buildSource_reads_structure_only_witness :
  buildSource
    (FunctionCall "max"
       [Operation (ArithmeticOp Times)
          [Variable_ "qty" number_; Literal (VNumber 3%Z) number_] number_;
        Literal (VBoolean true) boolean_]
       number_)
  = buildSource
      (FunctionCall "max"
         [Operation (ArithmeticOp Times)
            [Variable_ "qty" string_; Literal (VNumber 3%Z) boolean_;
             Unrecognized; Variable_ "ignored" number_] boolean_;
          Literal (VBoolean true) string_]
         string_).
Proof.
  apply buildSource_reads_structure_only. reflexivity.
Defined.

(** C9.  On a tree whose nodes all carry one of the four tags
    [buildSource] returns a string.  That holds when the operand count is
    wrong too: an operation whose operator is not unary and which has a
    single operand is rendered as that operand in parentheses, without the
    operator, and an operation whose operator is unary and which has two
    operands is rendered from the first operand alone; in both cases the
    failed assertion leaves its message on the console and execution goes
    on.  The one exception that [buildSource] throws, on any tree, is the one
    of the [default] branch. *)
Theorem buildSource_never_raises_on_tagged {number : Type} `{Number number}
    (e a b : Expression number) (operator : OperationOperator)
    (return_ : DataType) :
  well_tagged e = true ->
  well_tagged a = true ->
  well_tagged b = true ->
  (exists out s, buildSource e = (out, Normal s)) /\
  (exists outa sa outb sb,
     buildSource a = (outa, Normal sa) /\
     buildSource b = (outb, Normal sb) /\
     (isUnaryOperator operator = false ->
        buildSource (Operation operator [a] return_)
        = ((outa ++ ["Binary operation requires two operands"])%list,
           Normal ("(" ++ sa ++ ")"))) /\
     (isUnaryOperator operator = true ->
        buildSource (Operation operator [a; b] return_)
        = ((outa ++ outb ++ ["Unary operation requires one operand"])%list,
           Normal ("(" ++ operator_text operator ++ sa ++ ")")))) /\
  (forall (e' : Expression number) out x,
     buildSource e' = (out, Throw x) -> x = Error "Invalid expression type") /\
  @buildSource number _ Unrecognized
  = ([], Throw (Error "Invalid expression type")).
Proof.
  intros He Ha Hb. split; [|split; [|split]].
  - exact (well_tagged_Normal e He).
  - destruct (well_tagged_Normal a Ha) as (outa & sa & Hsa).
    destruct (well_tagged_Normal b Hb) as (outb & sb & Hsb).
    exists outa, sa, outb, sb. split; [exact Hsa|split; [exact Hsb|split]].
    + intros Hu. unfold buildSource; fold (@buildSource number _).
      rewrite Hsa, Hu. simpl. rewrite !app_nil_r. reflexivity.
    + intros Hu. unfold buildSource; fold (@buildSource number _).
      rewrite Hsa, Hsb, Hu. simpl. rewrite !app_nil_r, <- app_assoc.
      reflexivity.
  - intros e' out x. apply buildSource_Throw_default.
  - reflexivity.
Qed.

Lemma buildSource_never_raises_on_tagged_witness :
  exists out s,
    buildSource
      (FunctionCall "f"
         [Operation (BooleanOp And) [Literal (VBoolean true) boolean_] boolean_;
          Operation (ArithmeticOp Minus)
            [Literal (VNumber 1%Z) number_; Literal (VNumber 2%Z) number_]
            number_;
          Operation (ArithmeticOp Minus) [] number_]
         number_)
    = (out, Normal s).
Proof.
  exact (proj1
    (buildSource_never_raises_on_tagged
       (FunctionCall "f"
          [Operation (BooleanOp And) [Literal (VBoolean true) boolean_] boolean_;
           Operation (ArithmeticOp Minus)
             [Literal (VNumber 1%Z) number_; Literal (VNumber 2%Z) number_]
             number_;
           Operation (ArithmeticOp Minus) [] number_]
          number_)
       (Literal (VNumber 1%Z) number_) (Literal (VNumber 2%Z) number_)
       (ArithmeticOp Minus) number_ eq_refl eq_refl eq_refl)).
Defined.

(** C2: what the code does where the claim asks for an arity error.
    Negation with two operands and addition with one operand both compile:
    the assertion fails, its message goes to the console, and a text is
    returned, [(-1)] and [(1)]. *)
Theorem arity_mismatch_returns_text :
  buildSource (createOperation (ArithmeticOp Minus)
                 [createLiteral (VNumber 1%Z) number_;
                  createLiteral (VNumber 2%Z) number_])
  = (["Unary operation requires one operand"], Normal "(-1)") /\
  buildSource (createOperation (ArithmeticOp Plus)
                 [createLiteral (VNumber 1%Z) number_])
  = (["Binary operation requires two operands"], Normal "(1)").
Proof.
  split; reflexivity.
Qed.

(** ** Rule assembly *)

(** C1.  For a well-formed tree [buildRuleExpression] returns the record
    made of the given [id] and [priority], the text that [buildSource]
    returns for the tree, and the tree itself; nothing is written to the
    console. *)
Theorem buildRuleExpression_record {number : Type} `{Number number}
    (e : Expression number) (options : RuleOptions number) :
  well_formed e = true ->
  exists src,
    buildSource e = ([], Normal src) /\
    buildRuleExpression e options
    = ([], Normal {| id := opt_id options;
                     priority := opt_priority options;
                     source := src;
                     tree := e |}).
Proof.
  intros Hwf. destruct (well_formed_quiet e Hwf) as [src Hsrc].
  exists src. split; [exact Hsrc|].
  unfold buildRuleExpression. rewrite Hsrc. reflexivity.
Qed.

Lemma buildRuleExpression_record_witness :
  exists src,
    buildSource (createOperation (BooleanOp Lt)
                   [createVariable "age" number_;
                    createLiteral (VNumber 18%Z) number_])
    = ([], Normal src) /\
    buildRuleExpression
      (createOperation (BooleanOp Lt)
         [createVariable "age" number_; createLiteral (VNumber 18%Z) number_])
      {| opt_id := "r1"; opt_priority := 5%Z |}
    = ([], Normal {| id := "r1";
                     priority := 5%Z;
                     source := src;
                     tree := createOperation (BooleanOp Lt)
                               [createVariable "age" number_;
                                createLiteral (VNumber 18%Z) number_] |}).
Proof.
  exact (buildRuleExpression_record
           (createOperation (BooleanOp Lt)
              [createVariable "age" number_; createLiteral (VNumber 18%Z) number_])
           {| opt_id := "r1"; opt_priority := 5%Z |} eq_refl).
Defined.

(** ** Termination *)

(** C10.  Fuel equal to the number of nodes of the tree, or more, is enough
    for [buildSource_fuel] to return, and what it returns is the result of
    [buildSource]: the depth of the recursion is bounded by the size of the
    tree. *)
Theorem buildSource_terminates {number : Type} `{Number number}
    (e : Expression number) (fuel : nat) :
  size e <= fuel ->
  buildSource_fuel fuel e = Some (buildSource e).
Proof.
  revert e. induction fuel as [|fuel IH]; intros e Hsize.
  - destruct e; simpl in Hsize; lia.
  - destruct e as [name args r|operator operands r|value r|name r|].
    + simpl in Hsize. simpl buildSource_fuel.
      rewrite (Array_map_fuel_Some _ buildSource).
      * rewrite bind_fuel_Some. reflexivity.
      * intros a Ha. apply IH. pose proof (size_In a args Ha). lia.
    + simpl in Hsize. rewrite buildSource_Operation. simpl buildSource_fuel.
      rewrite (Array_map_fuel_Some _ buildSource).
      * unfold bind_fuel, bind.
        destruct (Array_map buildSource (Array_slice 0 2 operands))
          as [out [ys|x]]; [|reflexivity].
        cbv zeta. destruct (isUnaryOperator operator);
          match goal with
          | |- context [console_assert ?c ?m] =>
              destruct (console_assert c m) as [out1 [[]|x]]
          end; reflexivity.
      * intros a Ha. apply Array_slice_0_2_incl in Ha.
        apply IH. pose proof (size_In a operands Ha). lia.
    + destruct value as [n|s|[|]]; reflexivity.
    + reflexivity.
    + reflexivity.
Qed.

Lemma buildSource_terminates_witness :
  buildSource_fuel 5
    (createFunction "avg"
       [createOperation (ArithmeticOp Plus)
          [createVariable "price" number_; createLiteral (VNumber 10%Z) number_];
        createLiteral (VString "x") string_]
       number_)
  = Some ([], Normal ("avg((price + 10), " ++ dquote ++ "x" ++ dquote ++ ")")).
Proof.
  refine (buildSource_terminates _ 5 _). simpl. lia.
Defined.

(** ** More on [buildSource]: failure, console and shape of the text *)

Lemma bind_console_In {A B} (m : M A) (k : A -> M B) msg :
  In msg (fst (bind m k)) ->
  In msg (fst m) \/ exists a, snd m = Normal a /\ In msg (fst (k a)).
Proof.
  destruct m as [out [a|x]]; simpl.
  - destruct (k a) as [out' r] eqn:Hk. simpl. intros Hin.
    apply in_app_or in Hin. destruct Hin as [Hin|Hin]; [auto|].
    right. exists a. rewrite Hk. auto.
  - auto.
Qed.

Lemma Array_map_console_In {A B} (f : A -> M B) l msg :
  In msg (fst (Array_map f l)) -> exists x, In x l /\ In msg (fst (f x)).
Proof.
  induction l as [|x xs IH]; simpl.
  - contradiction.
  - intros Hin. apply bind_console_In in Hin.
    destruct Hin as [Hin|(y & _ & Hin)].
    + exists x. auto.
    + apply bind_console_In in Hin. destruct Hin as [Hin|(ys & _ & Hin)].
      * destruct (IH Hin) as (x' & Hx' & Hmsg). exists x'. auto.
      * contradiction.
Qed.

(** [map] over elements that either throw [E] or return: the loop throws
    [E] when some element does, and returns otherwise. *)
Lemma Array_map_cases {A B} (f : A -> M B) l E :
  Forall (fun x => snd (f x) = Throw E \/ exists y, snd (f x) = Normal y) l ->
  (snd (Array_map f l) = Throw E /\ Exists (fun x => snd (f x) = Throw E) l) \/
  (exists ys, Forall2 (fun x y => snd (f x) = Normal y) l ys).
Proof.
  induction 1 as [|x xs Hx _ IH].
  - right. exists []. constructor.
  - simpl. destruct (f x) as [out [y|e]] eqn:Hf; simpl in Hx.
    + destruct IH as [[Hthrow Hex]|[ys Hys]].
      * left. split.
        -- destruct (Array_map f xs) as [out' r]. simpl in *. subst r.
           reflexivity.
        -- apply Exists_cons_tl. exact Hex.
      * right. exists (y :: ys). constructor; [rewrite Hf; reflexivity|exact Hys].
    + left. destruct Hx as [Hx|[y Hy]]; [|discriminate]. split.
      * simpl. injection Hx as ->. reflexivity.
      * apply Exists_cons_hd. rewrite Hf. exact Hx.
Qed.

Lemma Forall2_In_left {A B} (R : A -> B -> Prop) l ys a :
  Forall2 R l ys -> In a l -> exists y, R a y.
Proof.
  induction 1 as [|x y xs ys' Hxy _ IH]; simpl.
  - contradiction.
  - intros [<-|Hin]; [exists y; exact Hxy|exact (IH Hin)].
Qed.

Lemma flat_map_nil_iff {A B} (f : A -> list B) l :
  flat_map f l = [] <-> Forall (fun x => f x = []) l.
Proof.
  induction l as [|x xs IH]; simpl.
  - split; [constructor|reflexivity].
  - split.
    + intros Happ. apply app_eq_nil in Happ. destruct Happ as [Hx Hxs].
      constructor; [exact Hx|apply IH; exact Hxs].
    + intros Hall. inversion Hall as [|? ? Hx Hxs]; subst.
      rewrite Hx. apply IH. exact Hxs.
Qed.

Section BuildSourceCases.
Context {number : Type} `{Number number}.
Implicit Types (e a b : Expression number) (rest : list (Expression number)).

(** The operation branch, by the number of operands. *)
Lemma buildSource_Operation_none operator return_ :
  @buildSource number _ (Operation operator [] return_) =
  if isUnaryOperator operator
  then (["Unary operation requires one operand"],
        Normal ("(" ++ operator_text operator ++ "undefined" ++ ")"))
  else (["Binary operation requires two operands"], Normal "()").
Proof.
  unfold buildSource. destruct (isUnaryOperator operator); reflexivity.
Qed.

Lemma buildSource_Operation_one operator a return_ out s :
  buildSource a = (out, Normal s) ->
  buildSource (Operation operator [a] return_) =
  if isUnaryOperator operator
  then (out, Normal ("(" ++ operator_text operator ++ s ++ ")"))
  else ((out ++ ["Binary operation requires two operands"])%list,
        Normal ("(" ++ s ++ ")")).
Proof.
  intros Ha. unfold buildSource; fold (@buildSource number _). rewrite Ha.
  destruct (isUnaryOperator operator); simpl; rewrite ?app_nil_r; reflexivity.
Qed.

Lemma buildSource_Operation_two operator a b rest return_ outa sa outb sb :
  buildSource a = (outa, Normal sa) ->
  buildSource b = (outb, Normal sb) ->
  buildSource (Operation operator (a :: b :: rest) return_) =
  if isUnaryOperator operator
  then ((outa ++ outb ++ ["Unary operation requires one operand"])%list,
        Normal ("(" ++ operator_text operator ++ sa ++ ")"))
  else ((outa ++ outb)%list,
        Normal ("(" ++ sa ++ " " ++ operator_text operator ++ " " ++ sb ++ ")")).
Proof.
  intros Ha Hb. unfold buildSource; fold (@buildSource number _).
  rewrite Ha, Hb. destruct (isUnaryOperator operator); simpl;
    rewrite ?app_nil_r, <- ?app_assoc;
    repeat (rewrite String_append_assoc; simpl); reflexivity.
Qed.

Lemma buildSource_Operation_first_throws operator a rest return_ out x :
  buildSource a = (out, Throw x) ->
  buildSource (Operation operator (a :: rest) return_) = (out, Throw x).
Proof.
  intros Ha. unfold buildSource; fold (@buildSource number _). rewrite Ha.
  reflexivity.
Qed.

Lemma buildSource_Operation_second_throws
    operator a b rest return_ outa sa outb x :
  buildSource a = (outa, Normal sa) ->
  buildSource b = (outb, Throw x) ->
  buildSource (Operation operator (a :: b :: rest) return_)
  = ((outa ++ outb)%list, Throw x).
Proof.
  intros Ha Hb. unfold buildSource; fold (@buildSource number _).
  rewrite Ha, Hb. reflexivity.
Qed.

(** Either a node with an unrecognized tag is reached and the exception of
    the [default] branch comes out, or none is reached and a text does. *)
Lemma visits_unrecognized_cases e :
  (visits_unrecognized e = true /\
   compile e = Throw (Error "Invalid expression type")) \/
  (visits_unrecognized e = false /\ exists s, compile e = Normal s).
Proof.
  unfold compile.
  induction e as [name args r IH|operator operands r IH|value r|name r|]
    using Expression_induction.
  - destruct (Array_map_cases buildSource args (Error "Invalid expression type"))
      as [[Hthrow Hex]|[ys Hys]].
    + eapply Forall_impl; [|exact IH]. simpl. intros a [[_ Ha]|[_ Ha]]; auto.
    + left. split.
      * simpl. apply existsb_exists. apply Exists_exists in Hex.
        destruct Hex as (a & Hin & Ha). exists a. split; [exact Hin|].
        rewrite Forall_forall in IH.
        destruct (IH a Hin) as [[Hv _]|[_ [s Hs]]]; [exact Hv|congruence].
      * rewrite buildSource_FunctionCall.
        destruct (Array_map buildSource args) as [out res]. simpl in Hthrow.
        subst res. reflexivity.
    + right. split.
      * simpl. destruct (existsb visits_unrecognized args) eqn:Hex; [|reflexivity].
        apply existsb_exists in Hex. destruct Hex as (a & Hin & Hv).
        rewrite Forall_forall in IH.
        destruct (IH a Hin) as [[_ Ha]|[Hv' _]]; [|congruence].
        destruct (Forall2_In_left _ _ _ _ Hys Hin) as (y & Hy). congruence.
      * rewrite buildSource_FunctionCall, (Array_map_Forall2 _ _ _ Hys).
        simpl. eexists; reflexivity.
  - destruct operands as [|a [|b rest]].
    + right. split; [reflexivity|]. rewrite buildSource_Operation_none.
      destruct (isUnaryOperator operator); eexists; reflexivity.
    + inversion IH as [|? ? IHa _]; subst. simpl visits_unrecognized.
      rewrite orb_false_r.
      destruct (buildSource a) as [out [s|x]] eqn:Ha; simpl in IHa.
      * right. destruct IHa as [[_ Hc]|[Hv _]]; [discriminate|].
        split; [exact Hv|]. rewrite (buildSource_Operation_one _ _ _ _ _ Ha).
        destruct (isUnaryOperator operator); eexists; reflexivity.
      * left. destruct IHa as [[Hv Hc]|[_ [s Hs]]]; [|discriminate].
        split; [exact Hv|].
        rewrite (buildSource_Operation_first_throws _ _ _ _ _ _ Ha). exact Hc.
    + inversion IH as [|? ? IHa IH']; subst.
      inversion IH' as [|? ? IHb _]; subst. simpl visits_unrecognized.
      destruct (buildSource a) as [outa [sa|x]] eqn:Ha; simpl in IHa.
      * destruct IHa as [[_ Hc]|[Hva _]]; [discriminate|].
        rewrite Hva, orb_false_l.
        destruct (buildSource b) as [outb [sb|x]] eqn:Hb; simpl in IHb.
        -- right. destruct IHb as [[_ Hc]|[Hvb _]]; [discriminate|].
           split; [exact Hvb|].
           rewrite (buildSource_Operation_two _ _ _ _ _ _ _ _ _ Ha Hb).
           destruct (isUnaryOperator operator); eexists; reflexivity.
        -- left. destruct IHb as [[Hvb Hc]|[_ [s Hs]]]; [|discriminate].
           split; [exact Hvb|].
           rewrite (buildSource_Operation_second_throws _ _ _ _ _ _ _ _ _ Ha Hb).
           exact Hc.
      * left. destruct IHa as [[Hva Hc]|[_ [s Hs]]]; [|discriminate].
        rewrite Hva. split; [reflexivity|].
        rewrite (buildSource_Operation_first_throws _ _ _ _ _ _ Ha). exact Hc.
  - right. split; [reflexivity|]. destruct value as [n|s|[|]]; eexists; reflexivity.
  - right. split; [reflexivity|]. eexists; reflexivity.
  - left. split; reflexivity.
Qed.

End BuildSourceCases.

Lemma existsb_false_In {A} (p : A -> bool) l a :
  existsb p l = false -> In a l -> p a = false.
Proof.
  intros Hex Hin. destruct (p a) eqn:Hp; [|reflexivity].
  rewrite <- Hex. symmetry. apply existsb_exists. exists a. auto.
Qed.

(** X1.  [buildSource] fails exactly when it reaches a node with an
    unrecognized tag, and then with the exception of the [default] branch;
    otherwise it returns a text.  Every argument of a call is reached, and
    the first two operands of an operation: a node with an unrecognized tag
    at a later operand does no harm. *)
Theorem buildSource_fails_iff_visits_unrecognized {number : Type}
    `{Number number} (e : Expression number) :
  (visits_unrecognized e = true <->
     compile e = Throw (Error "Invalid expression type")) /\
  (visits_unrecognized e = false <-> exists s, compile e = Normal s).
Proof.
  destruct (visits_unrecognized_cases e) as [[Hv Hc]|[Hv [s Hs]]];
    rewrite Hv; split; split; intros Hx;
    try reflexivity; try discriminate; try exact Hc; try congruence.
  - destruct Hx as [s Hs]. congruence.
  - exists s. exact Hs.
Qed.

(** X2.  On a tree that compiles, the console stays empty exactly when the
    assertions hold at every operation that is reached: one operand for a
    unary operator, two or more for any other.  The assertions are made
    after [slice(0, 2)], so that a third operand is not reported. *)
Theorem console_empty_iff_assertions_hold {number : Type} `{Number number}
    (e : Expression number) :
  visits_unrecognized e = false ->
  (console_of e = [] <-> assertions_hold e = true).
Proof.
  unfold console_of.
  induction e as [name args r IH|operator operands r IH|value r|name r|]
    using Expression_induction; intros Hv.
  - simpl in Hv. rewrite Forall_forall in IH.
    assert (Hvs : forall a, In a args -> visits_unrecognized a = false).
    { intros a Ha. exact (existsb_false_In _ _ _ Hv Ha). }
    destruct (Array_map_Normal buildSource args) as [ys Hys].
    { apply Forall_forall. intros a Ha.
      destruct (visits_unrecognized_cases a) as [[Hva _]|[_ Hs]]; [|exact Hs].
      rewrite (Hvs a Ha) in Hva. discriminate. }
    rewrite buildSource_FunctionCall, (Array_map_Forall2 _ _ _ Hys).
    simpl. unfold Console.
    rewrite app_nil_r, flat_map_nil_iff, Forall_forall, forallb_forall.
    split; intros Hall a Ha; apply (IH a Ha (Hvs a Ha)); exact (Hall a Ha).
  - destruct operands as [|a [|b rest]].
    + rewrite buildSource_Operation_none. simpl.
      destruct (isUnaryOperator operator); simpl; split; discriminate.
    + inversion IH as [|? ? IHa _]; subst. simpl in Hv.
      rewrite orb_false_r in Hv. specialize (IHa Hv).
      destruct (visits_unrecognized_cases a) as [[Hva _]|[_ [s Hs]]];
        [congruence|].
      unfold compile in Hs. destruct (buildSource a) as [out ra] eqn:Ha.
      simpl in Hs, IHa. subst ra.
      rewrite (buildSource_Operation_one _ _ _ _ _ Ha). simpl.
      destruct (isUnaryOperator operator); simpl.
      * rewrite andb_true_r. exact IHa.
      * split; [|discriminate]. intros Happ.
        apply app_eq_nil in Happ. destruct Happ as [_ Hmsg]. discriminate.
    + inversion IH as [|? ? IHa IH']; subst.
      inversion IH' as [|? ? IHb _]; subst. simpl in Hv.
      apply orb_false_iff in Hv. destruct Hv as [Hva Hvb].
      specialize (IHa Hva). specialize (IHb Hvb).
      destruct (visits_unrecognized_cases a) as [[Hva' _]|[_ [sa Hsa]]];
        [congruence|].
      destruct (visits_unrecognized_cases b) as [[Hvb' _]|[_ [sb Hsb]]];
        [congruence|].
      unfold compile in Hsa, Hsb.
      destruct (buildSource a) as [outa ra] eqn:Ha.
      destruct (buildSource b) as [outb rb] eqn:Hb.
      simpl in Hsa, Hsb, IHa, IHb. subst ra rb.
      rewrite (buildSource_Operation_two _ _ _ _ _ _ _ _ _ Ha Hb).
      simpl assertions_hold.
      destruct (isUnaryOperator operator); simpl.
      * split; [|discriminate]. intros Happ.
        apply app_eq_nil in Happ. destruct Happ as [_ Happ].
        apply app_eq_nil in Happ. destruct Happ as [_ Hmsg]. discriminate.
      * rewrite andb_true_iff. split.
        -- intros Happ. apply app_eq_nil in Happ. destruct Happ as [Houta Houtb].
           split; [apply IHa|apply IHb]; assumption.
        -- intros [Haa Hab]. apply IHa in Haa. apply IHb in Hab.
           rewrite Haa, Hab. reflexivity.
  - destruct value as [n|s|[|]]; simpl; split; reflexivity.
  - simpl. split; reflexivity.
  - discriminate.
Qed.

Lemma console_empty_iff_assertions_hold_witness :
  console_of
    (Operation (ArithmeticOp Times)
       [Variable_ "qty" number_; Literal (VNumber 3%Z) number_;
        Variable_ "extra" number_; Unrecognized]
       number_) = [] <-> true = true.
Proof.
  exact (console_empty_iff_assertions_hold
           (Operation (ArithmeticOp Times)
              [Variable_ "qty" number_; Literal (VNumber 3%Z) number_;
               Variable_ "extra" number_; Unrecognized]
              number_) eq_refl).
Defined.

(** X3.  Whatever the tree, and whether the compilation fails or not,
    [buildSource] writes nothing to the console but the messages of its two
    assertions. *)
Theorem console_only_assertion_messages {number : Type} `{Number number}
    (e : Expression number) (msg : string) :
  In msg (console_of e) ->
  msg = "Unary operation requires one operand" \/
  msg = "Binary operation requires two operands".
Proof.
  unfold console_of.
  induction e as [name args r IH|operator operands r IH|value r|name r|]
    using Expression_induction; intros Hin.
  - rewrite buildSource_FunctionCall in Hin. rewrite Forall_forall in IH.
    apply bind_console_In in Hin. destruct Hin as [Hin|(ys & _ & Hin)].
    + apply Array_map_console_In in Hin. destruct Hin as (a & Ha & Hmsg).
      exact (IH a Ha Hmsg).
    + contradiction.
  - rewrite buildSource_Operation in Hin. rewrite Forall_forall in IH.
    apply bind_console_In in Hin. destruct Hin as [Hin|(ys & _ & Hin)].
    + apply Array_map_console_In in Hin. destruct Hin as (a & Ha & Hmsg).
      apply Array_slice_0_2_incl in Ha. exact (IH a Ha Hmsg).
    + cbv zeta in Hin. destruct (isUnaryOperator operator).
      * destruct (List.length ys =? 1)%nat; simpl in Hin; [contradiction|].
        destruct Hin as [<-|[]]. left. reflexivity.
      * destruct (List.length ys =? 2)%nat; simpl in Hin; [contradiction|].
        destruct Hin as [<-|[]]. right. reflexivity.
  - destruct value as [n|s|[|]]; contradiction.
  - contradiction.
  - contradiction.
Qed.

Lemma console_only_assertion_messages_witness :
  compile
    (FunctionCall "f"
       [Operation (BooleanOp Or) [Literal (VBoolean true) boolean_] boolean_;
        Unrecognized]
       number_ : Expression Z)
  = Throw (Error "Invalid expression type") /\
  ("Binary operation requires two operands"
   = "Unary operation requires one operand" \/
   "Binary operation requires two operands"
   = "Binary operation requires two operands").
Proof.
  split; [reflexivity|].
  refine (console_only_assertion_messages
            (FunctionCall "f"
               [Operation (BooleanOp Or) [Literal (VBoolean true) boolean_]
                  boolean_;
                Unrecognized]
               number_ : Expression Z)
            "Binary operation requires two operands" _).
  simpl. left. reflexivity.
Defined.

(** X4.  What an operation that compiles is rendered to, by the number of
    its operands.  Without operands a unary operator is followed by the word
    undefined and any other operator gives empty parentheses; with one
    operand an operator that is not unary does not appear in the text; with
    two operands or more a unary operator is applied to the first and any
    other operator is put between the first and the second.  In every case
    the text is in parentheses and no operand after the second is in it. *)
Theorem operation_text_by_operand_count {number : Type} `{Number number}
    (operator : OperationOperator) (operands : list (Expression number))
    (return_ : DataType) (out : Console) (s : string) :
  buildSource (Operation operator operands return_) = (out, Normal s) ->
  match operands with
  | [] =>
      s = if isUnaryOperator operator
          then "(" ++ operator_text operator ++ "undefined" ++ ")"
          else "()"
  | [a] =>
      exists sa, compile a = Normal sa /\
        s = if isUnaryOperator operator
            then "(" ++ operator_text operator ++ sa ++ ")"
            else "(" ++ sa ++ ")"
  | a :: b :: _ =>
      exists sa sb, compile a = Normal sa /\ compile b = Normal sb /\
        s = if isUnaryOperator operator
            then "(" ++ operator_text operator ++ sa ++ ")"
            else "(" ++ sa ++ " " ++ operator_text operator ++ " " ++ sb ++ ")"
  end.
Proof.
  unfold compile. intros Hs. destruct operands as [|a [|b rest]].
  - rewrite buildSource_Operation_none in Hs.
    destruct (isUnaryOperator operator); congruence.
  - destruct (buildSource a) as [outa [sa|x]] eqn:Ha.
    + rewrite (buildSource_Operation_one _ _ _ _ _ Ha) in Hs.
      exists sa. split; [reflexivity|].
      destruct (isUnaryOperator operator); congruence.
    + rewrite (buildSource_Operation_first_throws _ _ _ _ _ _ Ha) in Hs.
      discriminate.
  - destruct (buildSource a) as [outa [sa|x]] eqn:Ha.
    + destruct (buildSource b) as [outb [sb|x]] eqn:Hb.
      * rewrite (buildSource_Operation_two _ _ _ _ _ _ _ _ _ Ha Hb) in Hs.
        exists sa, sb. split; [reflexivity|split; [reflexivity|]].
        destruct (isUnaryOperator operator); congruence.
      * rewrite (buildSource_Operation_second_throws _ _ _ _ _ _ _ _ _ Ha Hb) in Hs.
        discriminate.
    + rewrite (buildSource_Operation_first_throws _ _ _ _ _ _ Ha) in Hs.
      discriminate.
Qed.

Lemma operation_text_by_operand_count_witness :
  exists sa sb,
    compile (Variable_ "a" number_ : Expression Z) = Normal sa /\
    compile (Variable_ "b" number_ : Expression Z) = Normal sb /\
    "(-a)" = "(" ++ operator_text (ArithmeticOp Minus) ++ sa ++ ")".
Proof.
  exact (operation_text_by_operand_count (ArithmeticOp Minus)
           [Variable_ "a" number_; Variable_ "b" number_; Variable_ "c" number_]
           number_ ["Unary operation requires one operand"] "(-a)" eq_refl).
Defined.

(** X5.  [buildRuleExpression] on any tree: it fails exactly when the
    compilation of the tree fails, with the same exception and without a
    record; otherwise it returns the record with the text of the tree, also
    when an assertion failed on the way.  The console holds what
    [buildSource] wrote. *)
Theorem buildRuleExpression_any_tree {number : Type} `{Number number}
    (e : Expression number) (options : RuleOptions number) :
  fst (buildRuleExpression e options) = console_of e /\
  (visits_unrecognized e = true ->
     snd (buildRuleExpression e options)
     = Throw (Error "Invalid expression type")) /\
  (visits_unrecognized e = false ->
     exists src,
       compile e = Normal src /\
       snd (buildRuleExpression e options)
       = Normal {| id := opt_id options;
                   priority := opt_priority options;
                   source := src;
                   tree := e |}).
Proof.
  unfold buildRuleExpression, console_of.
  destruct (visits_unrecognized_cases e) as [[Hv Hc]|[Hv [src Hsrc]]];
    unfold compile in *; rewrite Hv;
    destruct (buildSource e) as [out res]; simpl in *; subst res; simpl.
  - split; [reflexivity|]. split; [reflexivity|discriminate].
  - split; [apply app_nil_r|]. split; [discriminate|].
    intros _. exists src. split; reflexivity.
Qed.

Lemma buildRuleExpression_any_tree_witness :
  exists src,
    compile (createOperation (ArithmeticOp Plus)
               [createLiteral (VNumber 1%Z) number_]) = Normal src /\
    snd (buildRuleExpression
           (createOperation (ArithmeticOp Plus)
              [createLiteral (VNumber 1%Z) number_])
           {| opt_id := "r2"; opt_priority := 1%Z |})
    = Normal {| id := "r2";
                priority := 1%Z;
                source := src;
                tree := createOperation (ArithmeticOp Plus)
                          [createLiteral (VNumber 1%Z) number_] |}.
Proof.
  exact (proj2 (proj2
    (buildRuleExpression_any_tree
       (createOperation (ArithmeticOp Plus)
          [createLiteral (VNumber 1%Z) number_])
       {| opt_id := "r2"; opt_priority := 1%Z |})) eq_refl).
Defined.

(** ** Parentheses of the text *)

Lemma scan_parens_app (s1 s2 : string) (depth : nat) :
  scan_parens (s1 ++ s2) depth
  = match scan_parens s1 depth with
    | Some depth' => scan_parens s2 depth'
    | None => None
    end.
Proof.
  revert depth. induction s1 as [|c s1 IH]; simpl; intros depth.
  - reflexivity.
  - destruct (c =? "(")%char; [apply IH|].
    destruct (c =? ")")%char; [|apply IH].
    destruct depth; [reflexivity|apply IH].
Qed.

Lemma scan_parens_shift (s : string) (depth depth' k : nat) :
  scan_parens s depth = Some depth' ->
  scan_parens s (depth + k) = Some (depth' + k).
Proof.
  revert depth. induction s as [|c s IH]; simpl; intros depth Hscan.
  - injection Hscan as <-. reflexivity.
  - destruct (c =? "(")%char; [exact (IH (S depth) Hscan)|].
    destruct (c =? ")")%char; [|exact (IH depth Hscan)].
    destruct depth as [|d]; [discriminate|]. exact (IH d Hscan).
Qed.

Lemma well_nested_scan (s : string) :
  well_nested s = true <-> forall depth, scan_parens s depth = Some depth.
Proof.
  unfold well_nested. split.
  - intros Hwn depth. destruct (scan_parens s 0) as [[|d]|] eqn:Hscan;
      try discriminate.
    exact (scan_parens_shift s 0 0 depth Hscan).
  - intros Hall. rewrite (Hall 0). reflexivity.
Qed.

Lemma well_nested_app (s1 s2 : string) :
  well_nested s1 = true -> well_nested s2 = true ->
  well_nested (s1 ++ s2) = true.
Proof.
  rewrite !well_nested_scan. intros H1 H2 depth.
  rewrite scan_parens_app, H1. apply H2.
Qed.

Lemma well_nested_parens (s : string) :
  well_nested s = true -> well_nested ("(" ++ s ++ ")") = true.
Proof.
  rewrite !well_nested_scan. intros Hs depth.
  simpl. rewrite scan_parens_app, Hs. reflexivity.
Qed.

Lemma well_nested_join (separator : string) (l : list string) :
  well_nested separator = true ->
  Forall (fun s => well_nested s = true) l ->
  well_nested (Array_join separator l) = true.
Proof.
  intros Hsep. unfold Array_join. induction 1 as [|s l Hs Hl IH]; simpl.
  - reflexivity.
  - destruct l as [|s' l'].
    + exact Hs.
    + apply well_nested_app; [exact Hs|].
      apply well_nested_app; [exact Hsep|exact IH].
Qed.

Lemma well_nested_operator (operator : OperationOperator) :
  well_nested (operator_text operator) = true.
Proof.
  destruct operator as [[]|[]]; reflexivity.
Qed.

Lemma bind_Normal_inv {A B} (m : M A) (k : A -> M B) out b :
  bind m k = (out, Normal b) ->
  exists out1 a out2, m = (out1, Normal a) /\ k a = (out2, Normal b).
Proof.
  destruct m as [out1 [a|x]]; simpl; [|discriminate].
  destruct (k a) as [out2 r] eqn:Hk. intros [= <- ->].
  exists out1, a, out2. auto.
Qed.

Lemma Array_map_Normal_inv {A B} (f : A -> M B) l :
  forall out ys,
    Array_map f l = (out, Normal ys) ->
    Forall2 (fun x y => snd (f x) = Normal y) l ys.
Proof.
  induction l as [|x xs IH]; simpl; intros out ys Hm.
  - injection Hm as <- <-. constructor.
  - apply bind_Normal_inv in Hm. destruct Hm as (out1 & y & out2 & Hx & Hm).
    apply bind_Normal_inv in Hm. destruct Hm as (out3 & ys' & out4 & Hxs & Hr).
    injection Hr as <- <-. constructor.
    + rewrite Hx. reflexivity.
    + exact (IH _ _ Hxs).
Qed.

(** X15.  When the names, the string values and the printed numbers of a
    tree are well nested, which they are when they hold no parenthesis, the
    text that the tree compiles to is well nested: every parenthesis that
    [buildSource] opens is closed, and none is closed before it is open. *)
Theorem buildSource_text_well_nested {number : Type} `{Number number}
    (e : Expression number) (s : string) :
  atoms_well_nested e = true ->
  compile e = Normal s ->
  well_nested s = true.
Proof.
  unfold compile. revert s.
  induction e as [name args r IH|operator operands r IH|value r|name r|]
    using Expression_induction; intros s Hatoms Hs.
  - simpl in Hatoms. apply andb_true_iff in Hatoms.
    destruct Hatoms as [Hname Hargs]. rewrite forallb_forall in Hargs.
    rewrite Forall_forall in IH.
    destruct (buildSource (FunctionCall name args r)) as [out res] eqn:Hb.
    simpl in Hs. subst res. rewrite buildSource_FunctionCall in Hb.
    apply bind_Normal_inv in Hb. destruct Hb as (out1 & ys & out2 & Hm & Hr).
    injection Hr as _ <-. apply Array_map_Normal_inv in Hm.
    apply well_nested_app; [exact Hname|].
    apply (well_nested_parens (Array_join ", " ys)).
    apply well_nested_join; [reflexivity|].
    clear - Hm IH Hargs. induction Hm as [|a y l ys Hy _ IHm].
    + constructor.
    + constructor.
      * apply (IH a (or_introl eq_refl) y (Hargs a (or_introl eq_refl)) Hy).
      * apply IHm.
        -- intros x Hx. apply IH. right. exact Hx.
        -- intros x Hx. apply Hargs. right. exact Hx.
  - simpl in Hatoms. rewrite forallb_forall in Hatoms.
    rewrite Forall_forall in IH.
    destruct (buildSource (Operation operator operands r)) as [out res] eqn:Hb.
    simpl in Hs. subst res. rewrite buildSource_Operation in Hb.
    apply bind_Normal_inv in Hb. destruct Hb as (out1 & ys & out2 & Hm & Hr).
    apply Array_map_Normal_inv in Hm.
    assert (Hys : Forall (fun y => well_nested y = true) ys).
    { clear - Hm IH Hatoms.
      assert (Hin : forall a, In a (Array_slice 0 2 operands) -> In a operands)
        by (intros a; apply Array_slice_0_2_incl).
      induction Hm as [|a y l ys Hy _ IHm].
      - constructor.
      - constructor.
        + assert (Ha : In a operands) by (apply Hin; left; reflexivity).
          exact (IH a Ha y (Hatoms a Ha) Hy).
        + apply IHm. intros a' Ha'. apply Hin. right. exact Ha'. }
    cbv zeta in Hr. destruct (isUnaryOperator operator).
    + destruct (List.length ys =? 1)%nat; simpl in Hr; injection Hr as _ <-.
      * rewrite <- String_append_assoc.
        apply (well_nested_parens (operator_text operator ++ template_index0 ys)).
        apply well_nested_app; [apply well_nested_operator|].
        destruct Hys; [reflexivity|assumption].
      * rewrite <- String_append_assoc.
        apply (well_nested_parens (operator_text operator ++ template_index0 ys)).
        apply well_nested_app; [apply well_nested_operator|].
        destruct Hys; [reflexivity|assumption].
    + assert (Hsep : well_nested (" " ++ operator_text operator ++ " ") = true).
      { apply (well_nested_app " "); [reflexivity|].
        apply well_nested_app; [apply well_nested_operator|reflexivity]. }
      destruct (List.length ys =? 2)%nat; simpl in Hr; injection Hr as _ <-.
      * apply (well_nested_parens (Array_join _ ys)).
        apply well_nested_join; assumption.
      * apply (well_nested_parens (Array_join _ ys)).
        apply well_nested_join; assumption.
  - destruct value as [n|v|[|]]; simpl in Hs, Hatoms; injection Hs as <-.
    + exact Hatoms.
    + apply (well_nested_app dquote); [reflexivity|].
      apply well_nested_app; [exact Hatoms|reflexivity].
    + reflexivity.
    + reflexivity.
  - simpl in Hs, Hatoms. injection Hs as <-. exact Hatoms.
  - discriminate.
Qed.

Lemma buildSource_text_well_nested_witness :
  well_nested ("avg((price + 10), " ++ dquote ++ "x" ++ dquote ++ ")") = true.
Proof.
  exact (buildSource_text_well_nested
           (createFunction "avg"
              [createOperation (ArithmeticOp Plus)
                 [createVariable "price" number_;
                  createLiteral (VNumber 10%Z) number_];
               createLiteral (VString "x") string_]
              number_)
           ("avg((price + 10), " ++ dquote ++ "x" ++ dquote ++ ")")
           eq_refl eq_refl).
Defined.

(** ** The editor: arrays *)

Module EditorFacts.
Import Editor.
Local Open Scope list_scope.

Lemma Array_spread_length {A} (l : list (Slot A)) :
  List.length (Array_spread l) = List.length l.
Proof.
  unfold Array_spread. apply length_map.
Qed.

Lemma Array_spread_dense {A} (l : list (Slot A)) :
  dense l -> Array_spread l = l.
Proof.
  unfold dense, Array_spread. induction 1 as [|s l Hs _ IH]; simpl.
  - reflexivity.
  - rewrite IH. destruct s; [reflexivity|reflexivity|contradiction].
Qed.

Lemma Array_read_spread {A} (l : list (Slot A)) index :
  Array_read (Array_spread l) index = Array_read l index.
Proof.
  unfold Array_read, Array_spread. rewrite nth_error_map.
  destruct (nth_error l index) as [[a| |]|]; reflexivity.
Qed.

Lemma Array_assign_in_range {A} (l : list (Slot A)) index x :
  index < List.length l ->
  List.length (Array_assign l index x) = List.length l /\
  nth_error (Array_assign l index x) index = Some (Elem x) /\
  forall j, j <> index ->
    nth_error (Array_assign l index x) j = nth_error l j.
Proof.
  intros Hlt. unfold Array_assign.
  apply Nat.ltb_lt in Hlt as Hltb. rewrite Hltb.
  assert (Hfirst : List.length (firstn index l) = index).
  { rewrite length_firstn. lia. }
  split; [|split].
  - rewrite length_app. cbn [List.length]. rewrite Hfirst, length_skipn. lia.
  - rewrite nth_error_app2 by lia. rewrite Hfirst, Nat.sub_diag. reflexivity.
  - intros j Hj. destruct (Nat.lt_ge_cases j index) as [Hlow|Hhigh].
    + rewrite nth_error_app1 by lia. rewrite nth_error_firstn.
      apply Nat.ltb_lt in Hlow. rewrite Hlow. reflexivity.
    + rewrite nth_error_app2 by lia. rewrite Hfirst.
      destruct (j - index) as [|k] eqn:Hk; [lia|]. cbn [nth_error].
      rewrite nth_error_skipn. f_equal. lia.
Qed.


Lemma Array_filter_from_keeps_all {A} (l : list (Slot A)) index i :
  dense l -> index < i ->
  Array_filter_from (fun j => negb (j =? index)%nat) i l = l.
Proof.
  intros Hd. revert i. induction Hd as [|s l Hs _ IH]; simpl; intros i Hlt.
  - reflexivity.
  - assert (Hneq : (i =? index)%nat = false) by (apply Nat.eqb_neq; lia).
    rewrite Hneq. simpl. rewrite IH by lia.
    destruct s; [reflexivity|reflexivity|contradiction].
Qed.

Lemma Array_filter_from_removes {A} (l : list (Slot A)) index i :
  dense l -> i <= index ->
  Array_filter_from (fun j => negb (j =? index)%nat) i l
  = firstn (index - i) l ++ skipn (S (index - i)) l.
Proof.
  intros Hd. revert i. induction Hd as [|s l Hs Hd IH]; simpl; intros i Hle.
  - rewrite firstn_nil. reflexivity.
  - destruct (i =? index)%nat eqn:Heq.
    + apply Nat.eqb_eq in Heq. subst i. rewrite Nat.sub_diag. simpl.
      rewrite (Array_filter_from_keeps_all l index (S index) Hd) by lia.
      destruct s; [reflexivity|reflexivity|contradiction].
    + apply Nat.eqb_neq in Heq. simpl.
      replace (index - i) with (S (index - S i)) by lia. simpl.
      rewrite IH by lia.
      destruct s; [reflexivity|reflexivity|contradiction].
Qed.

Lemma Array_filter_removes {A} (l : list (Slot A)) index :
  dense l ->
  Array_filter (fun j => negb (j =? index)%nat) l
  = firstn index l ++ skipn (S index) l.
Proof.
  intros Hd. unfold Array_filter.
  rewrite (Array_filter_from_removes l index 0 Hd) by lia.
  rewrite Nat.sub_0_r. reflexivity.
Qed.

Lemma Array_filter_from_dense {A} (keep : nat -> bool) (l : list (Slot A)) i :
  dense (Array_filter_from keep i l).
Proof.
  unfold dense. revert i. induction l as [|s l IH]; simpl; intros i.
  - constructor.
  - destruct s; [| |apply IH];
      (destruct (keep i); [constructor; [discriminate|apply IH]|apply IH]).
Qed.

(** ** The editor: what the handlers hand to [onUpdate] *)

(** X6.  [handleArgUpdate] at an index inside an array without holes: the
    call of [name] handed to [onUpdate] has as many arguments as before, the
    new argument at the index and the old arguments everywhere else.
    Without an [onUpdate] callback nothing is handed over. *)
Theorem handleArgUpdate_in_range {number : Type} (name : string)
    (args : list (Slot (Expression number))) (index : nat)
    (newArg : Expression number) :
  dense args ->
  index < List.length args ->
  exists newArgs,
    handleArgUpdate true name args index newArg
    = Some (FunctionCall name newArgs) /\
    List.length newArgs = List.length args /\
    nth_error newArgs index = Some (Elem newArg) /\
    (forall j, j <> index -> nth_error newArgs j = nth_error args j) /\
    handleArgUpdate false name args index newArg = None.
Proof.
  intros Hd Hlt. unfold handleArgUpdate. rewrite (Array_spread_dense args Hd).
  destruct (Array_assign_in_range args index newArg Hlt) as (Hlen & Hnew & Hold).
  exists (Array_assign args index newArg). auto.
Qed.

Lemma handleArgUpdate_in_range_witness :
  exists newArgs,
    handleArgUpdate true "avg"
      [Elem (Variable_ "price"); Elem Empty; Elem (Variable_ "tax")]
      1 (Literal (VNumber 10%Z) number_)
    = Some (FunctionCall "avg" newArgs) /\
    List.length newArgs = 3 /\
    nth_error newArgs 1 = Some (Elem (Literal (VNumber 10%Z) number_)) /\
    (forall j, j <> 1 ->
       nth_error newArgs j
       = nth_error
           [Elem (Variable_ "price"); Elem Empty; Elem (Variable_ "tax")] j) /\
    handleArgUpdate false "avg"
      [Elem (Variable_ "price"); Elem Empty; Elem (Variable_ "tax")]
      1 (Literal (VNumber 10%Z) number_) = None.
Proof.
  refine (handleArgUpdate_in_range "avg"
            [Elem (Variable_ "price"); Elem Empty; Elem (Variable_ "tax")]
            1 (Literal (VNumber 10%Z) number_) _ _).
  - repeat constructor; discriminate.
  - simpl. lia.
Defined.



(** X8.  [handleArgDelete] on an array without holes removes the argument
    at the index and nothing else: the arguments before it and after it are
    handed over in their order.  Inside the array there is one argument
    less; at an index past the end the arguments are handed over as they
    are. *)
Theorem handleArgDelete_removes_index {number : Type} (name : string)
    (args : list (Slot (Expression number))) (index : nat) :
  dense args ->
  handleArgDelete true name args index
  = Some (FunctionCall name (firstn index args ++ skipn (S index) args)) /\
  (index < List.length args ->
     S (List.length (firstn index args ++ skipn (S index) args))
     = List.length args) /\
  (List.length args <= index ->
     handleArgDelete true name args index = Some (FunctionCall name args)).
Proof.
  intros Hd. unfold handleArgDelete. rewrite (Array_filter_removes args index Hd).
  split; [reflexivity|]. split.
  - intros Hlt. rewrite length_app, length_firstn, length_skipn. lia.
  - intros Hle. rewrite firstn_all2 by exact Hle.
    rewrite skipn_all2 by lia. rewrite app_nil_r. reflexivity.
Qed.

Lemma handleArgDelete_removes_index_witness :
  @handleArgDelete Z true "max"
    [Elem (Variable_ "a"); Elem (Variable_ "b"); Elem (Variable_ "c")] 1
  = Some (FunctionCall "max" [Elem (Variable_ "a"); Elem (Variable_ "c")]).
Proof.
  refine (proj1 (handleArgDelete_removes_index (number := Z) "max"
            [Elem (Variable_ "a"); Elem (Variable_ "b"); Elem (Variable_ "c")]
            1 _)).
  repeat constructor; discriminate.
Defined.

(** X9.  [addArgument] puts an empty placeholder after the arguments, and
    [handleArgDelete] at the index of the placeholder gives the call back as
    it was. *)
Theorem addArgument_then_delete {number : Type} (name : string)
    (args : list (Slot (Expression number))) :
  dense args ->
  addArgument true name args
  = Some (FunctionCall name (args ++ [Elem Empty])) /\
  handleArgDelete true name (args ++ [Elem Empty]) (List.length args)
  = Some (FunctionCall name args).
Proof.
  intros Hd. split.
  - unfold addArgument. rewrite (Array_spread_dense args Hd). reflexivity.
  - unfold handleArgDelete. rewrite Array_filter_removes.
    + rewrite skipn_all2 by (rewrite length_app; simpl; lia).
      rewrite firstn_app, Nat.sub_diag, firstn_all, firstn_0, !app_nil_r.
      reflexivity.
    + unfold dense in *. apply Forall_app. split; [exact Hd|].
      constructor; [discriminate|constructor].
Qed.

Lemma addArgument_then_delete_witness :
  @addArgument Z true "f" [Elem (Variable_ "x")]
  = Some (FunctionCall "f" [Elem (Variable_ "x"); Elem Empty]) /\
  @handleArgDelete Z true "f" [Elem (Variable_ "x"); Elem Empty] 1
  = Some (FunctionCall "f" [Elem (Variable_ "x")]).
Proof.
  refine (addArgument_then_delete (number := Z) "f" [Elem (Variable_ "x")] _).
  repeat constructor; discriminate.
Defined.

(** X10.  Saving a new operator keeps the number of operands in step with
    the operator: when the operation had as many operands as the editor
    shows for its operator, one if unary and two otherwise, the operation
    handed to [onUpdate] has as many as it shows for the new operator, and
    its first operand reads the same as before. *)
Theorem Operation_handleSave_keeps_arity {number : Type}
    (exp_operator : string) (operands : list (Slot (Expression number)))
    (operator : string) :
  arity_ok exp_operator operands ->
  exists newOperands,
    Operation_handleSave true exp_operator operands operator
    = Some (Operation operator newOperands) /\
    arity_ok operator newOperands /\
    Array_read newOperands 0 = Array_read operands 0.
Proof.
  unfold arity_ok, Operation_handleSave. intros Hlen.
  destruct (isUnaryOperator exp_operator), (isUnaryOperator operator); simpl.
  - exists (Array_spread operands).
    rewrite Array_spread_length, Array_read_spread. auto.
  - exists (Array_push (Array_spread operands) Empty).
    split; [reflexivity|]. split.
    + unfold Array_push. rewrite length_app, Array_spread_length, Hlen.
      reflexivity.
    + destruct operands as [|s [|? ?]]; try discriminate.
      destruct s; reflexivity.
  - exists [Array_read (Array_spread operands) 0].
    split; [reflexivity|]. split; [reflexivity|].
    rewrite Array_read_spread. unfold Array_read at 1. simpl.
    destruct (Array_read operands 0) eqn:Hr; try reflexivity.
    unfold Array_read in Hr.
    destruct (nth_error operands 0) as [[a| |]|]; discriminate.
  - exists (Array_spread operands).
    rewrite Array_spread_length, Array_read_spread. auto.
Qed.

Lemma Operation_handleSave_keeps_arity_witness :
  exists newOperands,
    Operation_handleSave true "*"
      [Elem (Variable_ "qty"); Elem (Literal (VNumber 2%Z) number_)] "!"
    = Some (Operation "!" newOperands) /\
    arity_ok "!" newOperands /\
    Array_read newOperands 0
    = Array_read
        [Elem (Variable_ "qty"); Elem (Literal (VNumber 2%Z) number_)] 0.
Proof.
  exact (Operation_handleSave_keeps_arity "*"
           [Elem (Variable_ "qty"); Elem (Literal (VNumber 2%Z) number_)]
           "!" eq_refl).
Defined.

(** X11.  [handleOperandDelete] hands over the operands from the index on
    and drops the ones before it: the operand that was to be deleted is the
    first operand of the new operation.  The operands of the node on display
    are cut at the index by the same call, and the two parts together are
    the operands as they were.  At index 0 the new operation has every
    operand of the old one. *)
Theorem handleOperandDelete_keeps_from_index {number : Type}
    (exp_operator : string) (operands : list (Slot (Expression number)))
    (index : nat) :
  index < List.length operands ->
  exists newOperands,
    handleOperandDelete true exp_operator operands index
    = (firstn index operands, Some (Operation exp_operator newOperands)) /\
    newOperands = skipn index operands /\
    firstn index operands ++ newOperands = operands /\
    nth_error newOperands 0 = nth_error operands index /\
    List.length newOperands = List.length operands - index /\
    (index = 0 -> newOperands = operands).
Proof.
  intros Hlt. exists (skipn index operands).
  unfold handleOperandDelete, Array_splice.
  split; [reflexivity|]. split; [reflexivity|]. split; [apply firstn_skipn|].
  split; [|split].
  - rewrite nth_error_skipn. f_equal. lia.
  - apply length_skipn.
  - intros ->. reflexivity.
Qed.

Lemma handleOperandDelete_keeps_from_index_witness :
  @handleOperandDelete Z true "*"
    [Elem (Variable_ "a"); Elem (Variable_ "b")] 1
  = ([Elem (Variable_ "a")], Some (Operation "*" [Elem (Variable_ "b")])).
Proof.
  destruct (handleOperandDelete_keeps_from_index (number := Z) "*"
              [Elem (Variable_ "a"); Elem (Variable_ "b")] 1)
    as (newOperands & Hcall & Heq & _).
  - simpl. lia.
  - rewrite Hcall, Heq. reflexivity.
Defined.

(** X12.  The literals of the editor have a [return] field that is the type
    of their value: [createLiteral] takes it from the value, and the form
    converts the text to the type chosen.  For the type boolean the value is
    true exactly when the text is the word true in any mixture of cases,
    and false for every other text. *)
Theorem literal_return_is_typeof {number : Type} `{Number number}
    (Number_ofString : string -> number)
    (value : LiteralValue number) (text : string) (type : DataType) :
  createLiteral value = Literal value (typeof value) /\
  (exists typedValue,
     Literal_handleSave Number_ofString true text type
     = Some (Literal typedValue type) /\
     typeof typedValue = type /\
     (type = string_ -> typedValue = VString text) /\
     (type = number_ -> typedValue = VNumber (Number_ofString text)) /\
     (type = boolean_ ->
        (typedValue = VBoolean true <-> String_toLowerCase text = "true") /\
        (typedValue = VBoolean false <-> String_toLowerCase text <> "true"))).
Proof.
  split; [reflexivity|]. unfold Literal_handleSave.
  destruct type; eexists; (split; [reflexivity|]);
    (split; [reflexivity|]); repeat split; try discriminate; try reflexivity.
  - intros [= Heq]. apply String.eqb_eq. exact Heq.
  - intros Heq. apply String.eqb_eq in Heq. rewrite Heq. reflexivity.
  - intros [= Heq]. apply String.eqb_neq. exact Heq.
  - intros Hneq. apply String.eqb_neq in Hneq. rewrite Hneq. reflexivity.
Qed.

Lemma literal_return_is_typeof_witness :
  Literal_handleSave (fun _ => 0%Z) true "TRUE" boolean_
  = Some (Literal (VBoolean true) boolean_) /\
  Literal_handleSave (fun _ => 0%Z) true "yes" boolean_
  = Some (Literal (VBoolean false) boolean_).
Proof.
  split.
  - destruct (proj2 (literal_return_is_typeof (fun _ => 0%Z)
                       (VBoolean true) "TRUE" boolean_))
      as (typedValue & Hcall & _ & _ & _ & Hbool).
    rewrite Hcall. f_equal. f_equal.
    apply (proj1 (Hbool eq_refl)). reflexivity.
  - destruct (proj2 (literal_return_is_typeof (fun _ => 0%Z)
                       (VBoolean true) "yes" boolean_))
      as (typedValue & Hcall & _ & _ & _ & Hbool).
    rewrite Hcall. f_equal. f_equal.
    apply (proj2 (Hbool eq_refl)). discriminate.
Defined.

End EditorFacts.

(** ** The editor and the compiler side by side *)

(** X13.  On the operators of the compiler the two classifications of unary
    operators agree except on [+]: the compiler takes [-] alone as unary,
    the editor takes [+] too, and shows one operand for it. *)
Theorem isUnaryOperator_editor_and_compiler (operator : OperationOperator) :
  (Editor.isUnaryOperator (operator_text operator) = isUnaryOperator operator
   <-> operator <> ArithmeticOp Plus) /\
  (isUnaryOperator operator = true ->
   Editor.isUnaryOperator (operator_text operator) = true).
Proof.
  split.
  - destruct operator as [[]|[]]; vm_compute; split; intros Hx;
      try reflexivity; try discriminate; try congruence.
  - destruct operator as [[]|[]]; vm_compute; intros Hx;
      try reflexivity; try discriminate.
Qed.

Lemma isUnaryOperator_editor_and_compiler_witness :
  Editor.isUnaryOperator (operator_text (ArithmeticOp Minus)) = true.
Proof.
  exact (proj2 (isUnaryOperator_editor_and_compiler (ArithmeticOp Minus))
           eq_refl).
Defined.

(** X14.  A literal whose [return] is the type of its value, as the editor
    builds them, is shown by the editor as [buildSource] renders it when the
    value is a string or a number; a boolean is shown in lower case and
    rendered with a capital. *)
Theorem literal_text_editor_and_compiler {number : Type} `{Number number}
    (value : LiteralValue number) (return_ : DataType) :
  compile (Literal value return_)
  = Normal match value with
           | VBoolean true => "True"
           | VBoolean false => "False"
           | _ => Editor.Literal_text value (Editor.typeof value)
           end /\
  (forall b : bool,
     Editor.Literal_text (VBoolean b : LiteralValue number)
       (Editor.typeof (VBoolean b : LiteralValue number))
     = Boolean_toString b).
Proof.
  split.
  - destruct value as [n|s|[|]]; reflexivity.
  - intros b. reflexivity.
Qed.
